(** * Bridging of native types to foreign (C / Objective-C) types

    A shallow embedding of [lib/SIL/Bridging.cpp]: the four routines
    [TypeConverter::getBridgedInputType], [getBridgedResultType],
    [getLoweredBridgedType] and [getLoweredCBridgedType], together with the
    part of the AST type vocabulary they inspect.

    The routines are translated statement by statement.  The AST types and
    their queries ([Type], [TupleTypeElt], [ExtInfo], [OptionalType::get],
    ...) are declared in headers that are not part of [lib/SIL]; they are
    rendered by the smallest data model that gives each query the routines
    make its meaning, and the lookups of known types and the abstraction
    patterns are left open as a record and an interface. *)

From Stdlib Require Import List String Bool Arith Lia.
Import ListNotations.
Local Open Scope string_scope.
Local Open Scope bool_scope.

Set Implicit Arguments.
Set Warnings "-register-all".

(** ** Enumerations used by the bridging code *)

(** [SILFunctionTypeRepresentation]: the calling convention of a function. *)
Inductive SILFunctionTypeRepresentation : Set :=
| Thick | Block | Thin | CFunctionPointer | Method | ObjCMethod | WitnessMethod.

(** [TypeConverter::BridgedTypePurpose]. *)
Inductive BridgedTypePurpose : Set :=
| ForArgument | ForNonOptionalResult | ForResult.

(** [OptionalTypeKind] without its [OTK_None] member, which the embedding
    renders as the absence of a kind. *)
Inductive OptionalTypeKind : Set :=
| OTK_Optional | OTK_ImplicitlyUnwrappedOptional.

Inductive MetatypeRepresentation : Set :=
| MetatypeThin | MetatypeThick | MetatypeObjC.

Inductive DeclKind : Set :=
| StructDecl | ClassDecl | EnumDecl | ProtocolDecl.

Inductive DefaultArgumentKind : Set :=
| DefaultNone | DefaultNormal | DefaultInherited.

(** A nominal type declaration, identified by module, name and kind. *)
Record NominalTypeDecl : Set := mkDecl {
  declModule : string;
  declName : string;
  declKind : DeclKind;
  declIsObjC : bool
}.

(** Modelled from the spec: [AnyFunctionType::ExtInfo] is declared in
    swift/AST/Types.h.  A function type carries its own representation and
    further attributes; [withSILRepresentation] replaces the representation
    and keeps the rest. *)
Record ExtInfo : Set := mkExtInfo {
  extRepresentation : SILFunctionTypeRepresentation;
  extIsNoReturn : bool;
  extIsAutoClosure : bool;
  extIsNoEscape : bool;
  extThrows : bool
}.

Definition getSILRepresentation (info : ExtInfo) : SILFunctionTypeRepresentation :=
  extRepresentation info.

Definition withSILRepresentation (info : ExtInfo)
    (rep : SILFunctionTypeRepresentation) : ExtInfo :=
  mkExtInfo rep (extIsNoReturn info) (extIsAutoClosure info)
            (extIsNoEscape info) (extThrows info).

(** ** Canonical types *)

(** [TupleTypeElt], parametric in the type it carries so that it can occur
    inside the type of types. *)
Record TupleTypeElt_ (T : Type) : Type := mkElt {
  eltName : string;
  eltType : T;
  eltDefaultArgKind : DefaultArgumentKind;
  eltIsVararg : bool
}.

(** Modelled from the spec: canonical types ([CanType], declared in
    swift/AST/Type.h and Types.h), "structurally-deduplicated type values;
    two canonical types are equal iff they denote the same type".  Sugar is
    not represented: every value is its own canonical form, so
    [getCanonicalType] is the identity and pointer equality of canonical
    types is equality of values.  The shapes are those the bridging code
    tells apart: nominal types with their generic arguments (an optional
    is one of them: the bound generic type of an optional declaration),
    tuples, metatypes, existential metatypes, function types, protocol
    compositions, and builtin types for everything else. *)
Inductive Ty : Type :=
| NominalTy (d : NominalTypeDecl) (args : list Ty)
| TupleTy (elts : list (TupleTypeElt_ Ty))
| MetatypeTy (inst : Ty) (r : option MetatypeRepresentation)
| ExistentialMetatypeTy (inst : Ty) (r : option MetatypeRepresentation)
| FunctionTy (input result : Ty) (info : ExtInfo)
| ProtocolCompositionTy (protocols : list NominalTypeDecl)
| BuiltinTy (name : string).

Abbreviation TupleTypeElt := (TupleTypeElt_ Ty).
Abbreviation CanType := Ty (only parsing).

(** A possibly-null [Type]: [None] is the null type. *)
Abbreviation Type_ := (option Ty) (only parsing).

(** *** Decidable equality *)

Definition SILFunctionTypeRepresentation_eq_dec :
  forall a b : SILFunctionTypeRepresentation, {a = b} + {a <> b}.
Proof. decide equality. Defined.

Definition BridgedTypePurpose_eq_dec :
  forall a b : BridgedTypePurpose, {a = b} + {a <> b}.
Proof. decide equality. Defined.

Definition OptionalTypeKind_eq_dec :
  forall a b : OptionalTypeKind, {a = b} + {a <> b}.
Proof. decide equality. Defined.

Definition MetatypeRepresentation_eq_dec :
  forall a b : MetatypeRepresentation, {a = b} + {a <> b}.
Proof. decide equality. Defined.

Definition DeclKind_eq_dec : forall a b : DeclKind, {a = b} + {a <> b}.
Proof. decide equality. Defined.

Definition DefaultArgumentKind_eq_dec :
  forall a b : DefaultArgumentKind, {a = b} + {a <> b}.
Proof. decide equality. Defined.

Definition NominalTypeDecl_eq_dec :
  forall a b : NominalTypeDecl, {a = b} + {a <> b}.
Proof.
  decide equality; auto using bool_dec, DeclKind_eq_dec, string_dec.
Defined.

Definition ExtInfo_eq_dec : forall a b : ExtInfo, {a = b} + {a <> b}.
Proof.
  decide equality; auto using bool_dec, SILFunctionTypeRepresentation_eq_dec.
Defined.

Definition TupleTypeElt_eq_dec (T : Type)
    (T_eq_dec : forall a b : T, {a = b} + {a <> b}) :
  forall a b : TupleTypeElt_ T, {a = b} + {a <> b}.
Proof.
  decide equality; auto using bool_dec, DefaultArgumentKind_eq_dec, string_dec.
Defined.

Fixpoint Ty_eq_dec (a b : Ty) {struct a} : {a = b} + {a <> b}.
Proof.
  decide equality.
  - apply list_eq_dec. exact Ty_eq_dec.
  - apply NominalTypeDecl_eq_dec.
  - apply list_eq_dec. apply TupleTypeElt_eq_dec. exact Ty_eq_dec.
  - decide equality. apply MetatypeRepresentation_eq_dec.
  - decide equality. apply MetatypeRepresentation_eq_dec.
  - apply ExtInfo_eq_dec.
  - apply list_eq_dec. apply NominalTypeDecl_eq_dec.
  - apply string_dec.
Defined.

(** ** AST queries used by the bridging code *)

(** [a->isEqual(b)]: equality of canonical types. *)
Definition isEqual (a b : Ty) : bool :=
  if Ty_eq_dec a b then true else false.

(** [x && t->isEqual(x)] for a possibly-null [x]. *)
Definition nonNullAndEqual (x : Type_) (t : Ty) : bool :=
  match x with
  | Some x' => isEqual t x'
  | None => false
  end.

Definition nonNull {A : Type} (p : option A) : bool :=
  match p with
  | Some _ => true
  | None => false
  end.

(** The declarations of the standard library's two optional types. *)
Definition OptionalDecl (k : OptionalTypeKind) : NominalTypeDecl :=
  match k with
  | OTK_Optional => mkDecl "Swift" "Optional" EnumDecl false
  | OTK_ImplicitlyUnwrappedOptional =>
      mkDecl "Swift" "ImplicitlyUnwrappedOptional" EnumDecl false
  end.

(** Modelled from the spec: the canonical optional type of kind [k] around
    [v] ("a single-case wrapper around a value type, carrying which
    optional flavor was used"): the optional declaration of that kind
    applied to [v]. *)
Definition OptionalTy (k : OptionalTypeKind) (v : Ty) : Ty :=
  NominalTy (OptionalDecl k) [v].

(** Modelled from the spec: [decl->classifyAsOptionalType()], the kind when
    [d] is one of the two optional declarations. *)
Definition classifyAsOptionalType (d : NominalTypeDecl)
    : option OptionalTypeKind :=
  if NominalTypeDecl_eq_dec d (OptionalDecl OTK_Optional)
  then Some OTK_Optional
  else if NominalTypeDecl_eq_dec d (OptionalDecl OTK_ImplicitlyUnwrappedOptional)
  then Some OTK_ImplicitlyUnwrappedOptional
  else None.

(** Modelled from the spec: [t->getAnyOptionalObjectType(optKind)], the
    kind and the wrapped type when [t] is an optional of either kind, that
    is an optional declaration applied to its one argument. *)
Definition getAnyOptionalObjectType (t : Ty) : option (OptionalTypeKind * Ty) :=
  match t with
  | NominalTy d [v] =>
      match classifyAsOptionalType d with
      | Some k => Some (k, v)
      | None => None
      end
  | _ => None
  end.

(** Modelled from the spec: [OptionalType::get(kind, base)] on a non-null
    base, the optional of that kind ("the same optional flavor"). *)
Definition OptionalType_get_kind (k : OptionalTypeKind) (base : Ty) : Ty :=
  OptionalTy k base.

(** What evaluating an expression comes to: its value, or the dereference
    of a null [Type], at which the process dies without a report. *)
Inductive Evaluated (A : Type) : Type :=
| Value (a : A)
| NullDereference.
Arguments NullDereference {A}.

(** Modelled from the spec: [OptionalType::get(base)] is declared in
    swift/AST/Types.h, which is not among the sources.  On a non-null base
    it builds the plain optional.  It reads its base through [Type]'s
    [operator->], so on the null type the call dereferences null; the
    routines pass it the outcome of a lookup unchecked. *)
Definition OptionalType_get (base : Type_) : Evaluated Type_ :=
  match base with
  | Some b => Value (Some (OptionalTy OTK_Optional b))
  | None => NullDereference
  end.

(** Modelled from the spec: [t->getAnyNominal()], the declaration of a
    nominal or bound generic type; for an optional, the optional
    declaration. *)
Definition getAnyNominal (t : Ty) : option NominalTypeDecl :=
  match t with
  | NominalTy d _ => Some d
  | _ => None
  end.

(** Modelled from the spec: [t->getClassOrBoundGenericClass()], the
    declaration when [t] is a class type ("metatype of a class type"). *)
Definition getClassOrBoundGenericClass (t : Ty) : option NominalTypeDecl :=
  match t with
  | NominalTy d _ =>
      match declKind d with
      | ClassDecl => Some d
      | _ => None
      end
  | _ => None
  end.

Definition isObjCProtocol (d : NominalTypeDecl) : bool :=
  match declKind d with
  | ProtocolDecl => declIsObjC d
  | _ => false
  end.

(** Modelled from the spec: [t->isObjCExistentialType()], an existential
    ("protocol-witness") type that is "itself foreign-representable": there
    is at least one protocol and all are [@objc]. *)
Definition isObjCExistentialType (t : Ty) : bool :=
  match t with
  | NominalTy d [] => isObjCProtocol d
  | ProtocolCompositionTy ps => nonNull (head ps) && forallb isObjCProtocol ps
  | _ => false
  end.

(** Modelled from the spec: [elt.getWithType(T)], the element with the
    same name, default-argument kind and variadic bit and the type [T]. *)
Definition getWithType (elt : TupleTypeElt) (T : Ty) : TupleTypeElt :=
  mkElt (eltName elt) T (eltDefaultArgKind elt) (eltIsVararg elt).

(** Modelled from the spec: [TupleType::get] on the fields of a canonical
    tuple, the tuple of those fields in their order. *)
Definition TupleType_get (fields : list TupleTypeElt) : Ty :=
  TupleTy fields.

(** ** The type converter's registry of known types *)

(** [Context.getArrayDecl()] and its two siblings. *)
Record ASTContext : Type := mkASTContext {
  getArrayDecl : option NominalTypeDecl;
  getDictionaryDecl : option NominalTypeDecl;
  getSetDecl : option NominalTypeDecl
}.

(** The lookups of [TypeConverter] and [ASTContext] the bridging code
    performs, taken as given: each may come back null when the library that
    declares the type is not loaded. *)
Record TypeConverter : Type := mkTypeConverter {
  Context : ASTContext;
  getStringType : Type_;
  getBoolType : Type_;
  getNSStringType : Type_;
  getObjCBoolType : Type_;
  getNSArrayType : Type_;
  getNSDictionaryType : Type_;
  getNSSetType : Type_
}.

(** ** Abstraction patterns and Clang types

    Both are declared outside the sources; the bridging code only uses the
    four operations below, so they are taken as an interface. *)
Class AbstractionPatternOps (AbstractionPattern ClangType : Type) : Type := {
  isClangType : AbstractionPattern -> bool;
  getClangType : AbstractionPattern -> ClangType;
  getTupleElementType : AbstractionPattern -> nat -> AbstractionPattern;
  isBooleanType : ClangType -> bool
}.

(** ** Early return *)

(** A block of the form [if (...) { ...; return r; }] either returns or
    falls through to the statements after it. *)
Inductive Flow (A : Type) : Type :=
| Return (r : A)
| FallThrough.
Arguments FallThrough {A}.

Definition orElse {A : Type} (blk : Flow A) (rest : A) : A :=
  match blk with
  | Return r => r
  | FallThrough => rest
  end.

Notation "blk ';;;' rest" := (orElse blk rest)
  (at level 100, right associativity, format "blk  ;;;  '//' rest").

(** ** Diagnostics and fatal errors *)

(** [diag::could_not_find_bridge_type], with the type it names. *)
Inductive Diagnostic : Type :=
| could_not_find_bridge_type (t : Ty).

(** How a routine that may call [llvm::report_fatal_error] ends: it
    returns, it ends in the reported fatal error, or the process dies on a
    null dereference. *)
Inductive Outcome (A : Type) : Type :=
| Returned (a : A)
| FatalError (reason : string)
| Crashed.
Arguments FatalError {A}.
Arguments Crashed {A}.

(** A computation over [Context.Diags], the list of diagnostics emitted so
    far; diagnostics emitted before a fatal error stay emitted. *)
Definition Compile (A : Type) : Type :=
  list Diagnostic -> Outcome A * list Diagnostic.

Definition ret {A : Type} (a : A) : Compile A :=
  fun diags => (Returned a, diags).

Definition bind {A B : Type} (c : Compile A) (k : A -> Compile B) : Compile B :=
  fun diags =>
    match c diags with
    | (Returned a, diags') => k a diags'
    | (FatalError reason, diags') => (FatalError reason, diags')
    | (Crashed, diags') => (Crashed, diags')
    end.

Definition diagnose (d : Diagnostic) : Compile unit :=
  fun diags => (Returned tt, (diags ++ [d])%list).

Definition report_fatal_error {A : Type} (reason : string) : Compile A :=
  fun diags => (FatalError reason, diags).

(** Running an evaluation inside a routine: its value, or the crash. *)
Definition evaluate {A : Type} (e : Evaluated A) : Compile A :=
  fun diags =>
    match e with
    | Value a => (Returned a, diags)
    | NullDereference => (Crashed, diags)
    end.

Notation "x <- c ;; k" := (bind c (fun x => k))
  (at level 61, c at next level, right associativity).
Notation "c ;; k" := (bind c (fun _ => k))
  (at level 61, right associativity).

(** ** The bridging routines *)

Section Bridging.

Context {AbstractionPattern ClangType : Type}.
Context {patternOps : AbstractionPatternOps AbstractionPattern ClangType}.

(** The converter the routines are methods of. *)
Variable TC : TypeConverter.

(** [clangTy && clangTy->isBooleanType()]. *)
Definition nonNullAndBoolean (clangTy : option ClangType) : bool :=
  match clangTy with
  | Some c => isBooleanType c
  | None => false
  end.

(** [t->getAnyNominal() == decl] for a non-null [decl]. *)
Definition anyNominalIs (t : Ty) (decl : NominalTypeDecl) : bool :=
  match getAnyNominal t with
  | Some d => if NominalTypeDecl_eq_dec d decl then true else false
  | None => false
  end.

(** [TypeConverter::getLoweredCBridgedType]. *)
Definition getLoweredCBridgedType (t : Ty) (clangTy : option ClangType)
    (bridgedCollectionsAreOptional : bool) : Evaluated Type_ :=
  (* Bridge String back to NSString. *)
  let nativeStringTy := getStringType TC in
  (if nonNullAndEqual nativeStringTy t then
     let bridgedTy := getNSStringType TC in
     let bridgedTy :=
       if bridgedCollectionsAreOptional && nonNull clangTy
       then OptionalType_get bridgedTy else Value bridgedTy in
     Return bridgedTy
   else FallThrough) ;;;
  (* Bridge Bool back to ObjC bool, unless the original Clang type was _Bool. *)
  let nativeBoolTy := getBoolType TC in
  (if nonNullAndEqual nativeBoolTy t then
     if nonNullAndBoolean clangTy then Return (Value (Some t))
     else Return (Value (getObjCBoolType TC))
   else FallThrough) ;;;
  (* Class metatypes bridge to ObjC metatypes. *)
  (match t with
   | MetatypeTy instanceType _ =>
       if nonNull (getClassOrBoundGenericClass instanceType)
       then Return (Value (Some (MetatypeTy instanceType (Some MetatypeObjC))))
       else FallThrough
   | _ => FallThrough
   end) ;;;
  (* ObjC-compatible existential metatypes. *)
  (match t with
   | ExistentialMetatypeTy instanceType _ =>
       if isObjCExistentialType instanceType
       then Return (Value (Some (ExistentialMetatypeTy instanceType
                                                       (Some MetatypeObjC))))
       else FallThrough
   | _ => FallThrough
   end) ;;;
  (match t with
   | FunctionTy input result extInfo =>
       match getSILRepresentation extInfo with
       (* Functions that are already represented as blocks or C function
          pointers don't need bridging. *)
       | Block | CFunctionPointer | Thin | Method | ObjCMethod | WitnessMethod =>
           Return (Value (Some t))
       (* Thick functions get bridged to blocks. *)
       | Thick =>
           Return (Value (Some (FunctionTy input result
                                  (withSILRepresentation extInfo Block))))
       end
   | _ => FallThrough
   end) ;;;
  (* Array bridging. *)
  (match getArrayDecl (Context TC) with
   | Some arrayDecl =>
       if anyNominalIs t arrayDecl then
         let bridgedTy := getNSArrayType TC in
         let bridgedTy :=
           if bridgedCollectionsAreOptional && nonNull clangTy
           then OptionalType_get bridgedTy else Value bridgedTy in
         Return bridgedTy
       else FallThrough
   | None => FallThrough
   end) ;;;
  (* Dictionary bridging. *)
  (match getDictionaryDecl (Context TC) with
   | Some dictDecl =>
       if anyNominalIs t dictDecl then
         let bridgedTy := getNSDictionaryType TC in
         let bridgedTy :=
           if bridgedCollectionsAreOptional && nonNull clangTy
           then OptionalType_get bridgedTy else Value bridgedTy in
         Return bridgedTy
       else FallThrough
   | None => FallThrough
   end) ;;;
  (* Set bridging. *)
  (match getSetDecl (Context TC) with
   | Some setDecl =>
       if anyNominalIs t setDecl then
         let bridgedTy := getNSSetType TC in
         let bridgedTy :=
           if bridgedCollectionsAreOptional && nonNull clangTy
           then OptionalType_get bridgedTy else Value bridgedTy in
         Return bridgedTy
       else FallThrough
   | None => FallThrough
   end) ;;;
  Value (Some t).

(** [pattern.isClangType() ? pattern.getClangType() : nullptr]. *)
Definition clangTyOf (pattern : AbstractionPattern) : option ClangType :=
  if isClangType pattern then Some (getClangType pattern) else None.

(** [purpose == ForResult]. *)
Definition isForResult (purpose : BridgedTypePurpose) : bool :=
  match purpose with
  | ForResult => true
  | _ => false
  end.

(** [TypeConverter::getLoweredBridgedType]. *)
Definition getLoweredBridgedType (pattern : AbstractionPattern) (t : Ty)
    (rep : SILFunctionTypeRepresentation) (purpose : BridgedTypePurpose)
    : Evaluated Type_ :=
  match rep with
  | Thick | Thin | Method | WitnessMethod =>
      (* No bridging needed for native CCs. *)
      Value (Some t)
  | CFunctionPointer | ObjCMethod | Block =>
      (* Map native types back to bridged types. *)
      let clangTy := clangTyOf pattern in
      (* Look through optional types. *)
      match getAnyOptionalObjectType t with
      | Some (optKind, valueTy) =>
          match getLoweredCBridgedType valueTy clangTy false with
          | Value ty =>
              match ty with
              | Some ty' => Value (Some (OptionalType_get_kind optKind ty'))
              | None => Value ty
              end
          | NullDereference => NullDereference
          end
      | None => getLoweredCBridgedType t clangTy (isForResult purpose)
      end
  end.

(** The loop of [getBridgedInputType] over the elements of a tuple, from
    index [i] on, with the loop's two locals. *)
Fixpoint bridgeTupleElements (rep : SILFunctionTypeRepresentation)
    (pattern : AbstractionPattern) (elts : list TupleTypeElt) (i : nat)
    (bridgedFields : list TupleTypeElt) (changed : bool)
    : Compile (list TupleTypeElt * bool) :=
  match elts with
  | [] => ret (bridgedFields, changed)
  | elt :: rest =>
      bridged <- evaluate
                   (getLoweredBridgedType (getTupleElementType pattern i)
                                          (eltType elt) rep ForArgument) ;;
      match bridged with
      | None =>
          diagnose (could_not_find_bridge_type (eltType elt)) ;;
          report_fatal_error "unable to set up the ObjC bridge!"
      | Some canBridged =>
          if negb (isEqual canBridged (eltType elt)) then
            bridgeTupleElements rep pattern rest (S i)
              (bridgedFields ++ [getWithType elt canBridged])%list true
          else
            bridgeTupleElements rep pattern rest (S i)
              (bridgedFields ++ [elt])%list changed
      end
  end.

(** [TypeConverter::getBridgedInputType]. *)
Definition getBridgedInputType (rep : SILFunctionTypeRepresentation)
    (pattern : AbstractionPattern) (input : CanType) : Compile CanType :=
  match input with
  | TupleTy elements =>
      r <- bridgeTupleElements rep pattern elements 0 [] false ;;
      let '(bridgedFields, changed) := r in
      if negb changed then ret input
      else ret (TupleType_get bridgedFields)
  | _ =>
      loweredBridgedType <- evaluate
                              (getLoweredBridgedType pattern input rep
                                                     ForArgument) ;;
      match loweredBridgedType with
      | None =>
          diagnose (could_not_find_bridge_type input) ;;
          report_fatal_error "unable to set up the ObjC bridge!"
      | Some ty => ret ty
      end
  end.

(** [TypeConverter::getBridgedResultType]. *)
Definition getBridgedResultType (rep : SILFunctionTypeRepresentation)
    (pattern : AbstractionPattern) (result : CanType)
    (suppressOptional : bool) : Compile CanType :=
  loweredType <- evaluate
                   (getLoweredBridgedType pattern result rep
                      (if suppressOptional then ForNonOptionalResult
                       else ForResult)) ;;
  match loweredType with
  | None =>
      diagnose (could_not_find_bridge_type result) ;;
      report_fatal_error "unable to set up the ObjC bridge!"
  | Some ty => ret ty
  end.

End Bridging.

(** ** Vocabulary of the statements *)

(** The two groups of the representation switch. *)
Definition nativeRepresentations : list SILFunctionTypeRepresentation :=
  [Thick; Thin; Method; WitnessMethod].

Definition foreignRepresentations : list SILFunctionTypeRepresentation :=
  [CFunctionPointer; ObjCMethod; Block].

Definition notOptionalDecl (d : NominalTypeDecl) : bool :=
  negb (if NominalTypeDecl_eq_dec d (OptionalDecl OTK_Optional)
        then true else false)
  && negb (if NominalTypeDecl_eq_dec d
                (OptionalDecl OTK_ImplicitlyUnwrappedOptional)
           then true else false).

(** A nominal type other than an optional. *)
Definition isNominal (t : Ty) : bool :=
  match t with
  | NominalTy d _ => notOptionalDecl d
  | _ => false
  end.

Definition whenAvailable {A : Type} (p : A -> bool) (x : option A) : bool :=
  match x with
  | Some a => p a
  | None => true
  end.

(** [t->getAnyNominal() == decl] for a possibly-null [decl]. *)
Definition anyNominalIsKnown (t : Ty) (decl : option NominalTypeDecl) : bool :=
  match decl with
  | Some d => anyNominalIs t d
  | None => false
  end.

(** A foreign counterpart is a nominal type that is none of the native
    types the bridging rules start from. *)
Definition isForeignCounterpart (TC : TypeConverter) (t : Ty) : bool :=
  isNominal t
  && negb (nonNullAndEqual (getStringType TC) t)
  && negb (nonNullAndEqual (getBoolType TC) t)
  && negb (anyNominalIsKnown t (getArrayDecl (Context TC)))
  && negb (anyNominalIsKnown t (getDictionaryDecl (Context TC)))
  && negb (anyNominalIsKnown t (getSetDecl (Context TC))).

(** The shape of the registry when the libraries that are loaded declare
    what their names promise: the native string and boolean types are
    nominal types, every foreign counterpart is a nominal type other than
    the native types, and no collection declaration is one of the optional
    declarations.  Any lookup may still be unavailable. *)
Definition wellFormedKnownTypes (TC : TypeConverter) : bool :=
  whenAvailable isNominal (getStringType TC)
  && whenAvailable isNominal (getBoolType TC)
  && whenAvailable (isForeignCounterpart TC) (getNSStringType TC)
  && whenAvailable (isForeignCounterpart TC) (getObjCBoolType TC)
  && whenAvailable (isForeignCounterpart TC) (getNSArrayType TC)
  && whenAvailable (isForeignCounterpart TC) (getNSDictionaryType TC)
  && whenAvailable (isForeignCounterpart TC) (getNSSetType TC)
  && whenAvailable notOptionalDecl (getArrayDecl (Context TC))
  && whenAvailable notOptionalDecl (getDictionaryDecl (Context TC))
  && whenAvailable notOptionalDecl (getSetDecl (Context TC)).

(** [t] matches none of the rules of the leaf mapper. *)
Definition matchesNoRule (TC : TypeConverter) (t : Ty) : Prop :=
  nonNullAndEqual (getStringType TC) t = false
  /\ nonNullAndEqual (getBoolType TC) t = false
  /\ (forall inst r, t = MetatypeTy inst r ->
        getClassOrBoundGenericClass inst = None \/ r = Some MetatypeObjC)
  /\ (forall inst r, t = ExistentialMetatypeTy inst r ->
        isObjCExistentialType inst = false \/ r = Some MetatypeObjC)
  /\ (forall input result info, t = FunctionTy input result info ->
        getSILRepresentation info <> Thick)
  /\ anyNominalIsKnown t (getArrayDecl (Context TC)) = false
  /\ anyNominalIsKnown t (getDictionaryDecl (Context TC)) = false
  /\ anyNominalIsKnown t (getSetDecl (Context TC)) = false.

(** A bridger fails on [t]: one more diagnostic, naming [t], then the
    fatal error; nothing is returned. *)
Definition failsOn {A : Type} (c : Compile A) (diags : list Diagnostic)
    (t : Ty) : Prop :=
  c diags = (FatalError "unable to set up the ObjC bridge!",
             (diags ++ [could_not_find_bridge_type t])%list).

(** A bridger returns [a] and emits nothing. *)
Definition returns {A : Type} (c : Compile A) (diags : list Diagnostic)
    (a : A) : Prop :=
  c diags = (Returned a, diags).

(** ** A concrete registry and concrete patterns *)

Module Sample.

Inductive Clang : Set :=
| ClangBool            (* _Bool *)
| ClangSignedChar      (* BOOL *)
| ClangObjCPointer (cls : string).

Inductive Pattern : Set :=
| Opaque
| FromClang (c : Clang)
| FromClangTuple (elts : list Clang).

#[global] Instance patternOps : AbstractionPatternOps Pattern Clang := {|
  isClangType p :=
    match p with
    | Opaque => false
    | _ => true
    end;
  getClangType p :=
    match p with
    | FromClang c => c
    | _ => ClangObjCPointer "id"
    end;
  getTupleElementType p i :=
    match p with
    | FromClangTuple elts => FromClang (nth i elts (ClangObjCPointer "id"))
    | _ => p
    end;
  isBooleanType c :=
    match c with
    | ClangBool => true
    | _ => false
    end
|}.

Definition ArrayDecl := mkDecl "Swift" "Array" StructDecl false.
Definition DictionaryDecl := mkDecl "Swift" "Dictionary" StructDecl false.
Definition SetDecl := mkDecl "Swift" "Set" StructDecl false.

Definition Int := NominalTy (mkDecl "Swift" "Int" StructDecl false) [].
Definition String := NominalTy (mkDecl "Swift" "String" StructDecl false) [].
Definition Bool := NominalTy (mkDecl "Swift" "Bool" StructDecl false) [].
Definition ArrayOf (t : Ty) := NominalTy ArrayDecl [t].
Definition NSString :=
  NominalTy (mkDecl "Foundation" "NSString" ClassDecl true) [].
Definition NSArray :=
  NominalTy (mkDecl "Foundation" "NSArray" ClassDecl true) [].
Definition NSDictionary :=
  NominalTy (mkDecl "Foundation" "NSDictionary" ClassDecl true) [].
Definition NSSet :=
  NominalTy (mkDecl "Foundation" "NSSet" ClassDecl true) [].
Definition ObjCBool :=
  NominalTy (mkDecl "ObjectiveC" "ObjCBool" StructDecl false) [].

Definition stdlibContext : ASTContext :=
  mkASTContext (Some ArrayDecl) (Some DictionaryDecl) (Some SetDecl).

(** Standard library, ObjectiveC and Foundation all loaded. *)
Definition withFoundation : TypeConverter :=
  mkTypeConverter stdlibContext (Some String) (Some Bool)
    (Some NSString) (Some ObjCBool)
    (Some NSArray) (Some NSDictionary) (Some NSSet).

(** Standard library only: no foreign counterpart is available. *)
Definition stdlibOnly : TypeConverter :=
  mkTypeConverter stdlibContext (Some String) (Some Bool)
    None None None None None.

Definition unlabeled (t : Ty) : TupleTypeElt := mkElt "" t DefaultNone false.
Definition labeled (name : string) (t : Ty) : TupleTypeElt :=
  mkElt name t DefaultNone false.

Definition thickInfo : ExtInfo := mkExtInfo Thick false false true true.
Definition nsStringPtr : Pattern := FromClang (ClangObjCPointer "NSString").
Definition objcMethodArgs : Pattern :=
  FromClangTuple [ClangObjCPointer "NSInteger"; ClangObjCPointer "NSString"].

End Sample.

(** ** Vocabulary of the further properties *)

(** How many optionals are stacked at the top of a type. *)
Fixpoint optionalDepth (t : Ty) : nat :=
  match t with
  | NominalTy d [v] =>
      match classifyAsOptionalType d with
      | Some _ => S (optionalDepth v)
      | None => 0
      end
  | _ => 0
  end.

(** Every lookup of a foreign counterpart succeeds. *)
Definition foreignCounterpartsAvailable (TC : TypeConverter) : bool :=
  nonNull (getNSStringType TC)
  && nonNull (getObjCBoolType TC)
  && nonNull (getNSArrayType TC)
  && nonNull (getNSDictionaryType TC)
  && nonNull (getNSSetType TC).

(** A function type in the thick representation. *)
Definition isThickFunction (t : Ty) : bool :=
  match t with
  | FunctionTy _ _ info =>
      match getSILRepresentation info with
      | Thick => true
      | _ => false
      end
  | _ => false
  end.

Definition isObjCRepresentation (r : option MetatypeRepresentation) : bool :=
  match r with
  | Some MetatypeObjC => true
  | _ => false
  end.

(** A metatype of a class that is not in the ObjC representation. *)
Definition isNativeClassMetatype (t : Ty) : bool :=
  match t with
  | MetatypeTy inst r =>
      nonNull (getClassOrBoundGenericClass inst) && negb (isObjCRepresentation r)
  | _ => false
  end.

(** An existential metatype of an ObjC existential that is not in the ObjC
    representation. *)
Definition isNativeObjCExistentialMetatype (t : Ty) : bool :=
  match t with
  | ExistentialMetatypeTy inst r =>
      isObjCExistentialType inst && negb (isObjCRepresentation r)
  | _ => false
  end.

(** The optional the collection and string rules put around [x] for the
    purpose [purpose] and the pattern [pattern]. *)
Definition wrappedFor {AbstractionPattern ClangType : Type}
    {patternOps : AbstractionPatternOps AbstractionPattern ClangType}
    (pattern : AbstractionPattern) (purpose : BridgedTypePurpose)
    (x : option Ty) : Evaluated (option Ty) :=
  if isForResult purpose && isClangType pattern then OptionalType_get x
  else Value x.

(** ** Basic facts *)

Unset Implicit Arguments.

Section Properties.

Context {AbstractionPattern ClangType : Type}.
Context {patternOps : AbstractionPatternOps AbstractionPattern ClangType}.
Variable TC : TypeConverter.

Lemma isEqual_true_iff (a b : Ty) : isEqual a b = true <-> a = b.
Proof.
  unfold isEqual. destruct (Ty_eq_dec a b); split; intros; congruence.
Qed.

Lemma isEqual_refl (a : Ty) : isEqual a a = true.
Proof. apply isEqual_true_iff. reflexivity. Qed.

Lemma isEqual_false_iff (a b : Ty) : isEqual a b = false <-> a <> b.
Proof.
  unfold isEqual. destruct (Ty_eq_dec a b); split; intros; congruence.
Qed.

Lemma nonNullAndEqual_true_iff (x : Type_) (t : Ty) :
  nonNullAndEqual x t = true <-> x = Some t.
Proof.
  destruct x as [x|]; simpl.
  - rewrite isEqual_true_iff. split; congruence.
  - split; discriminate.
Qed.

Lemma nonNullAndEqual_false_iff (x : Type_) (t : Ty) :
  nonNullAndEqual x t = false <-> x <> Some t.
Proof.
  rewrite <- nonNullAndEqual_true_iff.
  destruct (nonNullAndEqual x t); split; congruence.
Qed.

Lemma getWithType_same (elt : TupleTypeElt) : getWithType elt (eltType elt) = elt.
Proof. destruct elt; reflexivity. Qed.

Lemma native_cases (rep : SILFunctionTypeRepresentation) :
  In rep nativeRepresentations ->
  rep = Thick \/ rep = Thin \/ rep = Method \/ rep = WitnessMethod.
Proof. simpl. intuition congruence. Qed.

Lemma foreign_cases (rep : SILFunctionTypeRepresentation) :
  In rep foreignRepresentations ->
  rep = CFunctionPointer \/ rep = ObjCMethod \/ rep = Block.
Proof. simpl. intuition congruence. Qed.

(** *** Optional types *)

Lemma classifyAsOptionalType_OptionalDecl k :
  classifyAsOptionalType (OptionalDecl k) = Some k.
Proof. destruct k; reflexivity. Qed.

Lemma classifyAsOptionalType_inv d k :
  classifyAsOptionalType d = Some k -> d = OptionalDecl k.
Proof.
  unfold classifyAsOptionalType.
  destruct (NominalTypeDecl_eq_dec d (OptionalDecl OTK_Optional)) as [E|E].
  { intros H. injection H as <-. exact E. }
  destruct (NominalTypeDecl_eq_dec d
              (OptionalDecl OTK_ImplicitlyUnwrappedOptional)) as [E'|E'].
  { intros H. injection H as <-. exact E'. }
  discriminate.
Qed.

Lemma notOptionalDecl_classify d :
  notOptionalDecl d = true <-> classifyAsOptionalType d = None.
Proof.
  unfold notOptionalDecl, classifyAsOptionalType.
  destruct (NominalTypeDecl_eq_dec d (OptionalDecl OTK_Optional));
    [simpl; split; discriminate|].
  destruct (NominalTypeDecl_eq_dec d
              (OptionalDecl OTK_ImplicitlyUnwrappedOptional));
    simpl; split; congruence.
Qed.

Lemma notOptionalDecl_OptionalDecl k : notOptionalDecl (OptionalDecl k) = false.
Proof. destruct k; reflexivity. Qed.

Lemma getAnyOptionalObjectType_OptionalTy k v :
  getAnyOptionalObjectType (OptionalTy k v) = Some (k, v).
Proof.
  unfold OptionalTy, getAnyOptionalObjectType.
  rewrite classifyAsOptionalType_OptionalDecl. reflexivity.
Qed.

(** Only [OptionalTy k v] is an optional of kind [k] around [v]. *)
Lemma getAnyOptionalObjectType_inv t k v :
  getAnyOptionalObjectType t = Some (k, v) -> t = OptionalTy k v.
Proof.
  destruct t as [d args| | | | | |]; try discriminate.
  destruct args as [|a [|a' args]]; try discriminate. simpl.
  destruct (classifyAsOptionalType d) as [k'|] eqn:Hd; [|discriminate].
  intros H. injection H as -> ->.
  apply classifyAsOptionalType_inv in Hd. subst d. reflexivity.
Qed.

Lemma getAnyOptionalObjectType_nominal d args :
  notOptionalDecl d = true ->
  getAnyOptionalObjectType (NominalTy d args) = None.
Proof.
  intros H. apply notOptionalDecl_classify in H. simpl.
  destruct args as [|a [|a' args]]; try reflexivity. rewrite H. reflexivity.
Qed.

Lemma OptionalTy_inj k v k' v' :
  OptionalTy k v = OptionalTy k' v' -> k = k' /\ v = v'.
Proof.
  intros H.
  assert (E : getAnyOptionalObjectType (OptionalTy k v)
              = getAnyOptionalObjectType (OptionalTy k' v')) by (rewrite H; reflexivity).
  rewrite !getAnyOptionalObjectType_OptionalTy in E. split; congruence.
Qed.

Lemma isNominal_OptionalTy k v : isNominal (OptionalTy k v) = false.
Proof. apply notOptionalDecl_OptionalDecl. Qed.

Lemma isNominal_not_optional t :
  isNominal t = true -> getAnyOptionalObjectType t = None.
Proof.
  destruct t as [d args| | | | | |]; try discriminate.
  apply getAnyOptionalObjectType_nominal.
Qed.

Lemma optionalDepth_OptionalTy k v :
  optionalDepth (OptionalTy k v) = S (optionalDepth v).
Proof.
  unfold OptionalTy. simpl. rewrite classifyAsOptionalType_OptionalDecl.
  reflexivity.
Qed.

(** *** The core mapper by groups of representations *)

(** Under a native representation the core mapper is the identity. *)
Lemma getLoweredBridgedType_native pattern t rep purpose :
  In rep nativeRepresentations ->
  getLoweredBridgedType TC pattern t rep purpose = Value (Some t).
Proof.
  intros H. apply native_cases in H.
  destruct H as [-> | [-> | [-> | ->]]]; reflexivity.
Qed.

(** Under a foreign representation the core mapper looks through one
    optional and otherwise asks the leaf mapper. *)
Lemma getLoweredBridgedType_foreign pattern t rep purpose :
  In rep foreignRepresentations ->
  getLoweredBridgedType TC pattern t rep purpose =
  match getAnyOptionalObjectType t with
  | Some (optKind, valueTy) =>
      match getLoweredCBridgedType TC valueTy (clangTyOf pattern) false with
      | Value (Some ty) => Value (Some (OptionalTy optKind ty))
      | Value None => Value None
      | NullDereference => NullDereference
      end
  | None =>
      getLoweredCBridgedType TC t (clangTyOf pattern) (isForResult purpose)
  end.
Proof.
  intros H. apply foreign_cases in H.
  destruct H as [-> | [-> | ->]]; unfold getLoweredBridgedType;
    (destruct (getAnyOptionalObjectType t) as [[k v]|];
     [ unfold OptionalType_get_kind;
       destruct (getLoweredCBridgedType TC v (clangTyOf pattern) false)
         as [[ty|]|]
     | ]); reflexivity.
Qed.

Lemma getLoweredBridgedType_optional pattern k v rep purpose :
  In rep foreignRepresentations ->
  getLoweredBridgedType TC pattern (OptionalTy k v) rep purpose =
  match getLoweredCBridgedType TC v (clangTyOf pattern) false with
  | Value (Some ty) => Value (Some (OptionalTy k ty))
  | Value None => Value None
  | NullDereference => NullDereference
  end.
Proof.
  intros H. rewrite getLoweredBridgedType_foreign by assumption.
  rewrite getAnyOptionalObjectType_OptionalTy. reflexivity.
Qed.

(** ** The leaf mapper, rule by rule *)

Lemma anyNominalIs_optional k v d :
  notOptionalDecl d = true -> anyNominalIs (OptionalTy k v) d = false.
Proof.
  unfold anyNominalIs. simpl. intros H.
  destruct (NominalTypeDecl_eq_dec (OptionalDecl k) d) as [E|E]; [|reflexivity].
  subst d. rewrite notOptionalDecl_OptionalDecl in H. discriminate.
Qed.

(** Rule 1: the native string type. *)
Lemma leaf_string s clangTy hint :
  getStringType TC = Some s ->
  getLoweredCBridgedType TC s clangTy hint =
  if hint && nonNull clangTy then OptionalType_get (getNSStringType TC)
  else Value (getNSStringType TC).
Proof.
  intros Hs. unfold getLoweredCBridgedType. rewrite Hs. simpl nonNullAndEqual.
  rewrite isEqual_refl. simpl. destruct (hint && nonNull clangTy); reflexivity.
Qed.

(** Rule 2: the native boolean type. *)
Lemma leaf_bool b clangTy hint :
  getBoolType TC = Some b ->
  getStringType TC <> Some b ->
  getLoweredCBridgedType TC b clangTy hint =
  if nonNullAndBoolean clangTy then Value (Some b)
  else Value (getObjCBoolType TC).
Proof.
  intros Hb Hs. unfold getLoweredCBridgedType.
  apply nonNullAndEqual_false_iff in Hs. rewrite Hs, Hb. simpl nonNullAndEqual.
  rewrite isEqual_refl. simpl. destruct (nonNullAndBoolean clangTy); reflexivity.
Qed.

(** Rule 5: function types. *)
Lemma leaf_function input result info clangTy hint :
  getStringType TC <> Some (FunctionTy input result info) ->
  getBoolType TC <> Some (FunctionTy input result info) ->
  getLoweredCBridgedType TC (FunctionTy input result info) clangTy hint =
  match getSILRepresentation info with
  | Thick =>
      Value (Some (FunctionTy input result (withSILRepresentation info Block)))
  | _ => Value (Some (FunctionTy input result info))
  end.
Proof.
  intros Hs Hb. unfold getLoweredCBridgedType.
  apply nonNullAndEqual_false_iff in Hs, Hb. rewrite Hs, Hb. simpl.
  destruct (getSILRepresentation info); reflexivity.
Qed.

(** No rule fires on a type that is neither a native string or boolean,
    nor a metatype, nor a function, nor of a collection declaration. *)
Lemma leaf_unchanged t clangTy hint :
  nonNullAndEqual (getStringType TC) t = false ->
  nonNullAndEqual (getBoolType TC) t = false ->
  (forall inst r, t = MetatypeTy inst r ->
     getClassOrBoundGenericClass inst = None \/ r = Some MetatypeObjC) ->
  (forall inst r, t = ExistentialMetatypeTy inst r ->
     isObjCExistentialType inst = false \/ r = Some MetatypeObjC) ->
  (forall input result info, t = FunctionTy input result info ->
     getSILRepresentation info <> Thick) ->
  anyNominalIsKnown t (getArrayDecl (Context TC)) = false ->
  anyNominalIsKnown t (getDictionaryDecl (Context TC)) = false ->
  anyNominalIsKnown t (getSetDecl (Context TC)) = false ->
  getLoweredCBridgedType TC t clangTy hint = Value (Some t).
Proof.
  intros Hs Hb Hm He Hf Ha Hd Hset. unfold getLoweredCBridgedType.
  rewrite Hs, Hb. unfold anyNominalIsKnown in *.
  destruct (getArrayDecl (Context TC)) as [ad|];
  destruct (getDictionaryDecl (Context TC)) as [dd|];
  destruct (getSetDecl (Context TC)) as [sd|];
  rewrite ?Ha, ?Hd, ?Hset;
  destruct t as [d args|elts|inst rp|inst rp|input result info|ps|name];
  simpl; try reflexivity.
  all: try (destruct (Hm _ _ eq_refl) as [E | E]; rewrite E; simpl;
            try reflexivity;
            destruct (nonNull (getClassOrBoundGenericClass inst));
            reflexivity).
  all: try (destruct (He _ _ eq_refl) as [E | E]; rewrite E; simpl;
            try reflexivity;
            destruct (isObjCExistentialType inst); reflexivity).
  all: try (specialize (Hf _ _ _ eq_refl);
            destruct (getSILRepresentation info); simpl; congruence).
Qed.

Lemma collection_block {A : Type} t decl (x : A) :
  match decl with
  | Some d => if anyNominalIs t d then Return x else FallThrough
  | None => FallThrough
  end
  = if anyNominalIsKnown t decl then Return x else FallThrough.
Proof. destruct decl; reflexivity. Qed.

(** The leaf mapper dereferences null only where it wraps: with the hint
    lowered, or without a Clang type, it hands back a possibly-null type. *)
Lemma leaf_is_value t (clangTy : option ClangType) hint :
  hint && nonNull clangTy = false ->
  exists x, getLoweredCBridgedType TC t clangTy hint = Value x.
Proof.
  intros Hh. unfold getLoweredCBridgedType. rewrite !Hh.
  rewrite !collection_block.
  destruct (nonNullAndEqual (getStringType TC) t); [simpl; eauto|].
  destruct (nonNullAndEqual (getBoolType TC) t).
  { destruct (nonNullAndBoolean clangTy); simpl; eauto. }
  cbn [orElse].
  assert (Htail : forall rest : Flow (Evaluated (option Ty)),
            (rest = FallThrough \/ exists y, rest = Return (Value y)) ->
            exists x,
              (rest ;;;
               (if anyNominalIsKnown t (getArrayDecl (Context TC))
                then Return (Value (getNSArrayType TC)) else FallThrough) ;;;
               (if anyNominalIsKnown t (getDictionaryDecl (Context TC))
                then Return (Value (getNSDictionaryType TC))
                else FallThrough) ;;;
               (if anyNominalIsKnown t (getSetDecl (Context TC))
                then Return (Value (getNSSetType TC)) else FallThrough) ;;;
               Value (Some t)) = Value x).
  { intros rest [-> | [y ->]]; cbn [orElse]; [|eauto].
    destruct (anyNominalIsKnown t (getArrayDecl (Context TC)));
      cbn [orElse]; [eauto|].
    destruct (anyNominalIsKnown t (getDictionaryDecl (Context TC)));
      cbn [orElse]; [eauto|].
    destruct (anyNominalIsKnown t (getSetDecl (Context TC)));
      cbn [orElse]; eauto. }
  destruct t as [d args|elts|inst rp|inst rp|input result info|ps|name];
    cbn [orElse]; try (apply (Htail FallThrough); auto).
  - destruct (nonNull (getClassOrBoundGenericClass inst)); cbn [orElse];
      [eauto | apply (Htail FallThrough); auto].
  - destruct (isObjCExistentialType inst); cbn [orElse];
      [eauto | apply (Htail FallThrough); auto].
  - destruct (getSILRepresentation info); cbn [orElse]; eauto.
Qed.

(** A core mapper that is not asked for a result hands back a
    possibly-null type. *)
Lemma getLoweredBridgedType_is_value pattern t rep purpose :
  isForResult purpose = false ->
  exists x, getLoweredBridgedType TC pattern t rep purpose = Value x.
Proof.
  intros Hp. unfold getLoweredBridgedType.
  destruct rep; eauto;
    (destruct (getAnyOptionalObjectType t) as [[k v]|];
     [ destruct (leaf_is_value v (clangTyOf pattern) false eq_refl)
         as [[y|] ->]; eauto
     | rewrite Hp; apply leaf_is_value; reflexivity ]).
Qed.

(** ** The loop over the elements of a tuple *)

Lemma run_fatal {A : Type} (t : Ty) (diags : list Diagnostic) :
  failsOn (A := A)
    (diagnose (could_not_find_bridge_type t) ;;
     report_fatal_error "unable to set up the ObjC bridge!") diags t.
Proof. reflexivity. Qed.

(** One turn of the loop. *)
Lemma bridgeTupleElements_cons rep pattern elt rest i bridgedFields changed
    diags :
  bridgeTupleElements TC rep pattern (elt :: rest) i bridgedFields changed diags
  = match getLoweredBridgedType TC (getTupleElementType pattern i)
            (eltType elt) rep ForArgument with
    | Value (Some canBridged) =>
        if negb (isEqual canBridged (eltType elt)) then
          bridgeTupleElements TC rep pattern rest (S i)
            (bridgedFields ++ [getWithType elt canBridged])%list true diags
        else
          bridgeTupleElements TC rep pattern rest (S i)
            (bridgedFields ++ [elt])%list changed diags
    | Value None =>
        (FatalError "unable to set up the ObjC bridge!",
         (diags ++ [could_not_find_bridge_type (eltType elt)])%list)
    | NullDereference => (Crashed, diags)
    end.
Proof.
  simpl. unfold bind at 1, evaluate.
  destruct (getLoweredBridgedType TC (getTupleElementType pattern i)
              (eltType elt) rep ForArgument) as [[b|]|]; try reflexivity.
  destruct (negb (isEqual b (eltType elt))); reflexivity.
Qed.

(** Under a native representation the loop copies the elements. *)
Lemma bridgeTupleElements_native rep pattern :
  In rep nativeRepresentations ->
  forall elts i bridgedFields changed diags,
    bridgeTupleElements TC rep pattern elts i bridgedFields changed diags =
    (Returned ((bridgedFields ++ elts)%list, changed), diags).
Proof.
  intros Hrep. induction elts as [|elt rest IH]; intros i acc ch diags.
  - simpl. rewrite app_nil_r. reflexivity.
  - rewrite bridgeTupleElements_cons.
    rewrite getLoweredBridgedType_native by assumption.
    rewrite isEqual_refl. simpl. rewrite IH, <- app_assoc. reflexivity.
Qed.

(** When every element has a mapping the loop runs to its end, emits
    nothing, and appends one field per element: the element itself when its
    bridged type is its own type, the element with the bridged type put in
    otherwise.  The flag stays down only if nothing was replaced. *)
Lemma bridgeTupleElements_returns rep pattern :
  forall elts i bridgedFields changed diags,
    (forall j elt, nth_error elts j = Some elt ->
       getLoweredBridgedType TC (getTupleElementType pattern (i + j))
                             (eltType elt) rep ForArgument <> Value None) ->
    exists fields changed',
      bridgeTupleElements TC rep pattern elts i bridgedFields changed diags =
      (Returned ((bridgedFields ++ fields)%list, changed'), diags)
      /\ List.length fields = List.length elts
      /\ (forall j elt, nth_error elts j = Some elt ->
            exists b,
              getLoweredBridgedType TC (getTupleElementType pattern (i + j))
                                    (eltType elt) rep ForArgument
              = Value (Some b)
              /\ nth_error fields j = Some (getWithType elt b))
      /\ (changed' = false -> changed = false /\ fields = elts).
Proof.
  induction elts as [|elt rest IH]; intros i acc ch diags Hall.
  - exists [], ch. simpl. rewrite app_nil_r. repeat split; auto.
    intros [|j] e He; discriminate.
  - rewrite bridgeTupleElements_cons.
    assert (Hhead := Hall 0 elt eq_refl). rewrite Nat.add_0_r in Hhead.
    destruct (getLoweredBridgedType_is_value (getTupleElementType pattern i)
                (eltType elt) rep ForArgument eq_refl) as [[b|] Hb];
      rewrite Hb in *; [|congruence].
    assert (Hrest : forall j e, nth_error rest j = Some e ->
              getLoweredBridgedType TC (getTupleElementType pattern (S i + j))
                                    (eltType e) rep ForArgument <> Value None).
    { intros j e He. specialize (Hall (S j) e He).
      rewrite Nat.add_succ_r in Hall. exact Hall. }
    destruct (isEqual b (eltType elt)) eqn:Heq; simpl.
    + apply isEqual_true_iff in Heq.
      destruct (IH (S i) (acc ++ [elt])%list ch diags Hrest)
        as (fields & ch' & Hrun & Hlen & Hnth & Hflag).
      exists (elt :: fields), ch'. rewrite Hrun, <- app_assoc.
      split; [reflexivity|]. split; [simpl; congruence|]. split.
      * intros [|j] e He; simpl in He.
        -- injection He as <-. exists b. rewrite Nat.add_0_r.
           split; [assumption|]. simpl. rewrite Heq, getWithType_same.
           reflexivity.
        -- rewrite Nat.add_succ_r. apply Hnth. assumption.
      * intros Hch. destruct (Hflag Hch) as [-> ->]. auto.
    + destruct (IH (S i) (acc ++ [getWithType elt b])%list true diags Hrest)
        as (fields & ch' & Hrun & Hlen & Hnth & Hflag).
      exists (getWithType elt b :: fields), ch'. rewrite Hrun, <- app_assoc.
      split; [reflexivity|]. split; [simpl; congruence|]. split.
      * intros [|j] e He; simpl in He.
        -- injection He as <-. exists b. rewrite Nat.add_0_r. auto.
        -- rewrite Nat.add_succ_r. apply Hnth. assumption.
      * intros Hch. destruct (Hflag Hch) as [Habs _]. discriminate.
Qed.

(** The loop stops at the first element without a mapping: it reports
    that element's type and ends in the fatal error. *)
Lemma bridgeTupleElements_fails rep pattern :
  forall elts i bridgedFields changed diags j elt,
    nth_error elts j = Some elt ->
    getLoweredBridgedType TC (getTupleElementType pattern (i + j))
                          (eltType elt) rep ForArgument = Value None ->
    (forall j' elt', j' < j -> nth_error elts j' = Some elt' ->
       getLoweredBridgedType TC (getTupleElementType pattern (i + j'))
                             (eltType elt') rep ForArgument <> Value None) ->
    failsOn (bridgeTupleElements TC rep pattern elts i bridgedFields changed)
            diags (eltType elt).
Proof.
  induction elts as [|e rest IH]; intros i acc ch diags j elt Hj Hnone Hbefore.
  - destruct j; discriminate.
  - destruct j as [|j]; simpl in Hj.
    + injection Hj as ->. rewrite Nat.add_0_r in Hnone.
      unfold failsOn. rewrite bridgeTupleElements_cons, Hnone. reflexivity.
    + assert (Hhead := Hbefore 0 e (Nat.lt_0_succ j) eq_refl).
      rewrite Nat.add_0_r in Hhead.
      assert (Hrest : forall j' elt', j' < j -> nth_error rest j' = Some elt' ->
                getLoweredBridgedType TC
                  (getTupleElementType pattern (S i + j'))
                  (eltType elt') rep ForArgument <> Value None).
      { intros j' e' Hlt He'.
        specialize (Hbefore (S j') e' (proj1 (Nat.succ_lt_mono _ _) Hlt) He').
        rewrite Nat.add_succ_r in Hbefore. exact Hbefore. }
      rewrite Nat.add_succ_r in Hnone.
      unfold failsOn. rewrite bridgeTupleElements_cons.
      destruct (getLoweredBridgedType_is_value (getTupleElementType pattern i)
                  (eltType e) rep ForArgument eq_refl) as [[b|] Hb];
        rewrite Hb in *; [|congruence].
      destruct (negb (isEqual b (eltType e)));
        eapply (IH (S i)); eassumption.
Qed.

(** If the loop returns, every element had a mapping. *)
Lemma bridgeTupleElements_inv rep pattern :
  forall elts i bridgedFields changed diags r diags',
    bridgeTupleElements TC rep pattern elts i bridgedFields changed diags
    = (Returned r, diags') ->
    forall j elt, nth_error elts j = Some elt ->
      getLoweredBridgedType TC (getTupleElementType pattern (i + j))
                            (eltType elt) rep ForArgument <> Value None.
Proof.
  induction elts as [|e rest IH]; intros i acc ch diags r diags' Hrun j elt Hj.
  - destruct j; discriminate.
  - rewrite bridgeTupleElements_cons in Hrun.
    destruct (getLoweredBridgedType TC (getTupleElementType pattern i)
                (eltType e) rep ForArgument) as [[b|]|] eqn:Hb;
      try discriminate.
    destruct j as [|j]; simpl in Hj.
    + injection Hj as <-. rewrite Nat.add_0_r. congruence.
    + rewrite Nat.add_succ_r.
      destruct (negb (isEqual b (eltType e)));
        eapply (IH (S i)); eassumption.
Qed.

(** ** The entry points *)

Lemma getBridgedResultType_run rep pattern result suppressOptional diags :
  getBridgedResultType TC rep pattern result suppressOptional diags =
  match getLoweredBridgedType TC pattern result rep
          (if suppressOptional then ForNonOptionalResult else ForResult) with
  | Value (Some ty) => (Returned ty, diags)
  | Value None => (FatalError "unable to set up the ObjC bridge!",
                   (diags ++ [could_not_find_bridge_type result])%list)
  | NullDereference => (Crashed, diags)
  end.
Proof.
  unfold getBridgedResultType, bind, evaluate.
  destruct (getLoweredBridgedType TC pattern result rep _) as [[ty|]|];
    reflexivity.
Qed.

Lemma getBridgedInputType_run rep pattern input diags :
  (forall elts, input <> TupleTy elts) ->
  getBridgedInputType TC rep pattern input diags =
  match getLoweredBridgedType TC pattern input rep ForArgument with
  | Value (Some ty) => (Returned ty, diags)
  | Value None => (FatalError "unable to set up the ObjC bridge!",
                   (diags ++ [could_not_find_bridge_type input])%list)
  | NullDereference => (Crashed, diags)
  end.
Proof.
  intros Hnt. unfold getBridgedInputType.
  destruct input;
    try (unfold bind, evaluate;
         destruct (getLoweredBridgedType TC pattern _ rep _) as [[ty|]|];
         reflexivity).
  exfalso. eapply Hnt. reflexivity.
Qed.

(** C4: under each of the native representations (thick, thin, method,
    witness-method), for every pattern and every input or result type [T],
    whatever its shape, [getBridgedInputType] and [getBridgedResultType]
    return [T] itself; they emit no diagnostic and do not fail. *)
Theorem native_pass_through rep pattern (T : CanType) suppressOptional diags :
  In rep nativeRepresentations ->
  returns (getBridgedInputType TC rep pattern T) diags T
  /\ returns (getBridgedResultType TC rep pattern T suppressOptional) diags T.
Proof.
  intros Hrep. unfold returns. split.
  - destruct T as [|elts| | | | |];
      try (rewrite getBridgedInputType_run by (intros; discriminate);
           rewrite getLoweredBridgedType_native by assumption; reflexivity).
    unfold getBridgedInputType, bind.
    rewrite bridgeTupleElements_native by assumption. reflexivity.
  - rewrite getBridgedResultType_run.
    rewrite getLoweredBridgedType_native by assumption. reflexivity.
Qed.

(** What [getBridgedInputType] makes of a tuple all of whose elements have
    a mapping: a tuple with, at each index, the input element carrying its
    bridged type. *)
Lemma getBridgedInputType_tuple rep pattern (elts : list TupleTypeElt) diags :
  (forall j elt, nth_error elts j = Some elt ->
     getLoweredBridgedType TC (getTupleElementType pattern j)
                           (eltType elt) rep ForArgument <> Value None) ->
  exists elts',
    returns (getBridgedInputType TC rep pattern (TupleTy elts)) diags
            (TupleTy elts')
    /\ List.length elts' = List.length elts
    /\ (forall j elt, nth_error elts j = Some elt ->
          exists b,
            getLoweredBridgedType TC (getTupleElementType pattern j)
                                  (eltType elt) rep ForArgument
            = Value (Some b)
            /\ nth_error elts' j = Some (getWithType elt b)).
Proof.
  intros Hall.
  destruct (bridgeTupleElements_returns rep pattern elts 0 [] false diags Hall)
    as (fields & ch & Hrun & Hlen & Hnth & Hflag).
  simpl in Hrun.
  exists (if ch then fields else elts).
  split; [|split].
  - unfold returns, getBridgedInputType, bind. rewrite Hrun.
    destruct ch; reflexivity.
  - destruct ch; [assumption | reflexivity].
  - intros j elt He. destruct (Hnth j elt He) as (b & Hb & Hf). simpl in Hb.
    exists b. split; [assumption|].
    destruct ch; [assumption|].
    destruct (Hflag eq_refl) as [_ Heq]. rewrite <- Heq. assumption.
Qed.

(** Fields that carry the bridged types are the input fields when no type
    changed. *)
Lemma fields_unchanged rep pattern (elts elts' : list TupleTypeElt) :
  List.length elts' = List.length elts ->
  (forall j elt, nth_error elts j = Some elt ->
     exists b,
       getLoweredBridgedType TC (getTupleElementType pattern j)
                             (eltType elt) rep ForArgument = Value (Some b)
       /\ nth_error elts' j = Some (getWithType elt b)) ->
  (forall j elt, nth_error elts j = Some elt ->
     getLoweredBridgedType TC (getTupleElementType pattern j)
                           (eltType elt) rep ForArgument
     = Value (Some (eltType elt))) ->
  elts' = elts.
Proof.
  intros Hlen Hnth Hid. apply nth_error_ext. intros j.
  destruct (nth_error elts j) as [elt|] eqn:He.
  - destruct (Hnth j elt He) as (b & Hb & Hf).
    rewrite (Hid j elt He) in Hb. injection Hb as <-.
    rewrite Hf, getWithType_same. reflexivity.
  - apply nth_error_None. rewrite Hlen. apply nth_error_None. assumption.
Qed.

(** C2: for a tuple input under any representation, when every element has
    a mapping, [getBridgedInputType] returns a tuple with as many elements,
    in the same order; each element keeps its label, its default-argument
    kind and its variadic bit, carries the bridged type of the input
    element, and is the input element itself when that type did not change.
    When no element's type changes the returned tuple is the input tuple. *)
Theorem tuple_minimality rep pattern (elts : list TupleTypeElt) diags :
  (forall j elt, nth_error elts j = Some elt ->
     getLoweredBridgedType TC (getTupleElementType pattern j)
                           (eltType elt) rep ForArgument <> Value None) ->
  exists elts',
    returns (getBridgedInputType TC rep pattern (TupleTy elts)) diags
            (TupleTy elts')
    /\ List.length elts' = List.length elts
    /\ (forall j elt, nth_error elts j = Some elt ->
          exists elt' b,
            nth_error elts' j = Some elt'
            /\ getLoweredBridgedType TC (getTupleElementType pattern j)
                                     (eltType elt) rep ForArgument
               = Value (Some b)
            /\ eltType elt' = b
            /\ eltName elt' = eltName elt
            /\ eltDefaultArgKind elt' = eltDefaultArgKind elt
            /\ eltIsVararg elt' = eltIsVararg elt
            /\ (b = eltType elt -> elt' = elt))
    /\ ((forall j elt, nth_error elts j = Some elt ->
           getLoweredBridgedType TC (getTupleElementType pattern j)
                                 (eltType elt) rep ForArgument
           = Value (Some (eltType elt))) ->
        elts' = elts).
Proof.
  intros Hall.
  destruct (getBridgedInputType_tuple rep pattern elts diags Hall)
    as (elts' & Hret & Hlen & Hnth).
  exists elts'. split; [assumption|]. split; [assumption|]. split.
  - intros j elt He. destruct (Hnth j elt He) as (b & Hb & Hf).
    exists (getWithType elt b), b. repeat split; auto.
    intros ->. apply getWithType_same.
  - intros Hid. eapply fields_unchanged; eassumption.
Qed.

(** The entry points turn a null mapping, and nothing else, into the
    reported failure: a result, or an input that is not a tuple, is
    reported exactly when its mapping is null; a tuple input at the first
    element whose mapping is null.  A reported failure emits one diagnostic,
    naming the type without a mapping, and ends in the fatal error with
    nothing returned; a return emits nothing. *)
Lemma entry_points_report_null_mappings rep pattern diags :
  (forall result (suppressOptional : bool),
     let purpose :=
       if suppressOptional then ForNonOptionalResult else ForResult in
     (getLoweredBridgedType TC pattern result rep purpose = Value None ->
      failsOn (getBridgedResultType TC rep pattern result suppressOptional)
              diags result)
     /\ (forall ty,
           getLoweredBridgedType TC pattern result rep purpose
           = Value (Some ty) ->
           returns (getBridgedResultType TC rep pattern result
                                         suppressOptional) diags ty))
  /\ (forall input,
        (forall elts, input <> TupleTy elts) ->
        (getLoweredBridgedType TC pattern input rep ForArgument = Value None ->
         failsOn (getBridgedInputType TC rep pattern input) diags input)
        /\ (forall ty,
              getLoweredBridgedType TC pattern input rep ForArgument
              = Value (Some ty) ->
              returns (getBridgedInputType TC rep pattern input) diags ty))
  /\ (forall elts,
        (forall j elt, nth_error elts j = Some elt ->
           getLoweredBridgedType TC (getTupleElementType pattern j)
                                 (eltType elt) rep ForArgument <> Value None) ->
        exists ty,
          returns (getBridgedInputType TC rep pattern (TupleTy elts)) diags ty)
  /\ (forall elts j elt,
        nth_error elts j = Some elt ->
        getLoweredBridgedType TC (getTupleElementType pattern j)
                              (eltType elt) rep ForArgument = Value None ->
        (forall j' elt', j' < j -> nth_error elts j' = Some elt' ->
           getLoweredBridgedType TC (getTupleElementType pattern j')
                                 (eltType elt') rep ForArgument
           <> Value None) ->
        failsOn (getBridgedInputType TC rep pattern (TupleTy elts)) diags
                (eltType elt)).
Proof.
  split; [|split; [|split]].
  - intros result suppressOptional purpose. subst purpose.
    unfold failsOn, returns. rewrite getBridgedResultType_run.
    split; [intros -> | intros ty ->]; reflexivity.
  - intros input Hnt. unfold failsOn, returns.
    rewrite getBridgedInputType_run by assumption.
    split; [intros -> | intros ty ->]; reflexivity.
  - intros elts Hall.
    destruct (getBridgedInputType_tuple rep pattern elts diags Hall)
      as (elts' & Hret & _).
    eauto.
  - intros elts j elt Hj Hnone Hbefore.
    assert (Hloop := bridgeTupleElements_fails rep pattern elts 0 [] false
                       diags j elt Hj Hnone Hbefore).
    unfold failsOn in *. unfold getBridgedInputType, bind. rewrite Hloop.
    reflexivity.
Qed.

(** C8: the leaf mapper hands a lookup that came back null to
    [OptionalType::get] without the check the core mapper makes before its
    own call.  So for a result of the native string type, under a foreign
    representation, with a Clang type in the pattern and the foreign string
    type unavailable, the leaf mapper and the core mapper end in a null
    dereference and [getBridgedResultType] dies with no diagnostic; with
    [suppressOptional] set, and for the optional of the string type, where
    nothing is wrapped or the check is made, the same missing lookup is
    reported at the entry point: one diagnostic naming the type, then the
    fatal error. *)
Theorem null_counterpart_is_dereferenced rep pattern s diags :
  In rep foreignRepresentations ->
  isClangType pattern = true ->
  getStringType TC = Some s ->
  getAnyOptionalObjectType s = None ->
  getNSStringType TC = None ->
  getLoweredCBridgedType TC s (clangTyOf pattern) true = NullDereference
  /\ getLoweredBridgedType TC pattern s rep ForResult = NullDereference
  /\ getBridgedResultType TC rep pattern s false diags = (Crashed, diags)
  /\ failsOn (getBridgedResultType TC rep pattern s true) diags s
  /\ (forall k,
        failsOn (getBridgedResultType TC rep pattern (OptionalTy k s) false)
                diags (OptionalTy k s)).
Proof.
  intros Hrep Hclang Hs Hopt Hns.
  assert (Hleaf : forall hint,
            getLoweredCBridgedType TC s (clangTyOf pattern) hint
            = if hint then NullDereference else Value None).
  { intros hint. rewrite leaf_string by assumption.
    unfold clangTyOf. rewrite Hclang, Hns. destruct hint; reflexivity. }
  assert (Hcore : getLoweredBridgedType TC pattern s rep ForResult
                  = NullDereference).
  { rewrite getLoweredBridgedType_foreign by assumption.
    rewrite Hopt. apply (Hleaf true). }
  split; [apply (Hleaf true)|]. split; [exact Hcore|]. split; [|split].
  - rewrite getBridgedResultType_run, Hcore. reflexivity.
  - unfold failsOn. rewrite getBridgedResultType_run.
    rewrite getLoweredBridgedType_foreign by assumption.
    rewrite Hopt. simpl. rewrite (Hleaf false). reflexivity.
  - intros k. unfold failsOn. rewrite getBridgedResultType_run.
    rewrite getLoweredBridgedType_optional by assumption.
    rewrite (Hleaf false). reflexivity.
Qed.

(** ** The core mapper *)

(** C1 (amended): when the type is not an optional, the core mapper hands
    it to the leaf mapper with the hint [purpose == ForResult]; so for the
    purpose "argument" the native string type, under a foreign
    representation and with a Clang type in the pattern, is bridged to the
    foreign string type itself, with no optional around it. *)
Theorem hint_is_result_purpose pattern t rep purpose :
  In rep foreignRepresentations ->
  getAnyOptionalObjectType t = None ->
  getLoweredBridgedType TC pattern t rep purpose
  = getLoweredCBridgedType TC t (clangTyOf pattern) (isForResult purpose)
  /\ (getStringType TC = Some t ->
      isClangType pattern = true ->
      getLoweredBridgedType TC pattern t rep ForArgument
      = Value (getNSStringType TC)).
Proof.
  intros Hrep Hopt. split.
  - rewrite getLoweredBridgedType_foreign by assumption.
    rewrite Hopt. reflexivity.
  - intros Hs Hclang.
    rewrite getLoweredBridgedType_foreign by assumption.
    rewrite Hopt. rewrite leaf_string by assumption. reflexivity.
Qed.

(** The wrapped case, for comparison: purpose "result". *)
Lemma string_result_is_optional pattern s rep :
  In rep foreignRepresentations ->
  getAnyOptionalObjectType s = None ->
  getStringType TC = Some s ->
  isClangType pattern = true ->
  getLoweredBridgedType TC pattern s rep ForResult
  = OptionalType_get (getNSStringType TC).
Proof.
  intros Hrep Hopt Hs Hclang.
  rewrite getLoweredBridgedType_foreign by assumption.
  rewrite Hopt. rewrite leaf_string by assumption.
  unfold clangTyOf. rewrite Hclang. reflexivity.
Qed.

(** No type is its own optional. *)
Lemma optional_neq k (t : Ty) : OptionalTy k t <> t.
Proof.
  intros H.
  assert (E : optionalDepth (OptionalTy k t) = optionalDepth t)
    by (rewrite H; reflexivity).
  rewrite optionalDepth_OptionalTy in E. lia.
Qed.

(** C3: bridging [Optional<V>] resolves [V] with the leaf mapper under a
    false hint (under a native representation [V] stays as it is) and puts
    the result back into an optional of the same kind; when resolving [V]
    gives no mapping neither does the whole lookup; and the result is never
    an optional of an optional of the bridged [V]. *)
Theorem optional_transparency pattern k V rep purpose :
  (In rep foreignRepresentations ->
   getLoweredBridgedType TC pattern (OptionalTy k V) rep purpose
   = match getLoweredCBridgedType TC V (clangTyOf pattern) false with
     | Value (Some bridged) => Value (Some (OptionalTy k bridged))
     | Value None => Value None
     | NullDereference => NullDereference
     end
   /\ forall bridged k1 k2,
        getLoweredCBridgedType TC V (clangTyOf pattern) false
        = Value (Some bridged) ->
        getLoweredBridgedType TC pattern (OptionalTy k V) rep purpose
        <> Value (Some (OptionalTy k1 (OptionalTy k2 bridged))))
  /\ (In rep nativeRepresentations ->
      getLoweredBridgedType TC pattern V rep purpose = Value (Some V)
      /\ getLoweredBridgedType TC pattern (OptionalTy k V) rep purpose
         = Value (Some (OptionalTy k V))
      /\ forall k1 k2,
           getLoweredBridgedType TC pattern (OptionalTy k V) rep purpose
           <> Value (Some (OptionalTy k1 (OptionalTy k2 V)))).
Proof.
  split.
  - intros Hrep. rewrite getLoweredBridgedType_optional by assumption.
    split; [reflexivity|]. intros bridged k1 k2 ->.
    intros H.
    assert (E : OptionalTy k bridged = OptionalTy k1 (OptionalTy k2 bridged))
      by congruence.
    apply OptionalTy_inj in E.
    destruct E as [_ E]. symmetry in E. exact (optional_neq _ _ E).
  - intros Hrep. rewrite !getLoweredBridgedType_native by assumption.
    repeat split. intros k1 k2 H.
    assert (E : OptionalTy k V = OptionalTy k1 (OptionalTy k2 V))
      by congruence.
    apply OptionalTy_inj in E.
    destruct E as [_ E]. symmetry in E. exact (optional_neq _ _ E).
Qed.

(** C5: under a foreign representation the native boolean type stays as
    it is when the pattern has a Clang type and that type is a boolean
    type; otherwise, with no Clang type or one that is not a boolean type,
    it becomes what the lookup of the foreign boolean type gives. *)
Theorem boolean_special_case pattern b rep purpose :
  In rep foreignRepresentations ->
  getBoolType TC = Some b ->
  getStringType TC <> Some b ->
  getAnyOptionalObjectType b = None ->
  (isClangType pattern = true ->
   isBooleanType (getClangType pattern) = true ->
   getLoweredBridgedType TC pattern b rep purpose = Value (Some b))
  /\ (isClangType pattern = true ->
      isBooleanType (getClangType pattern) = false ->
      getLoweredBridgedType TC pattern b rep purpose
      = Value (getObjCBoolType TC))
  /\ (isClangType pattern = false ->
      getLoweredBridgedType TC pattern b rep purpose
      = Value (getObjCBoolType TC)).
Proof.
  intros Hrep Hb Hs Hopt.
  rewrite getLoweredBridgedType_foreign by assumption.
  rewrite Hopt, leaf_bool by assumption. unfold clangTyOf.
  repeat split.
  - intros -> H. simpl. rewrite H. reflexivity.
  - intros -> H. simpl. rewrite H. reflexivity.
  - intros ->. reflexivity.
Qed.

(** C6: under a foreign representation a function type whose own
    representation is block, C function pointer, thin, method, ObjC method
    or witness method comes back as it is; a thick one comes back with the
    representation block and the same input type, result type and other
    attributes. *)
Theorem function_type_rule pattern input result info rep purpose :
  In rep foreignRepresentations ->
  getStringType TC <> Some (FunctionTy input result info) ->
  getBoolType TC <> Some (FunctionTy input result info) ->
  (In (getSILRepresentation info)
      [Block; CFunctionPointer; Thin; Method; ObjCMethod; WitnessMethod] ->
   getLoweredBridgedType TC pattern (FunctionTy input result info) rep purpose
   = Value (Some (FunctionTy input result info)))
  /\ (getSILRepresentation info = Thick ->
      exists info',
        getLoweredBridgedType TC pattern (FunctionTy input result info)
                              rep purpose
        = Value (Some (FunctionTy input result info'))
        /\ getSILRepresentation info' = Block
        /\ extIsNoReturn info' = extIsNoReturn info
        /\ extIsAutoClosure info' = extIsAutoClosure info
        /\ extIsNoEscape info' = extIsNoEscape info
        /\ extThrows info' = extThrows info).
Proof.
  intros Hrep Hs Hb.
  rewrite getLoweredBridgedType_foreign by assumption. simpl.
  rewrite leaf_function by assumption. split.
  - intros Hin. destruct (getSILRepresentation info); try reflexivity.
    simpl in Hin. intuition discriminate.
  - intros ->. exists (withSILRepresentation info Block).
    repeat split.
Qed.

(** ** Well-formed registries *)

Lemma wellFormedKnownTypes_parts :
  wellFormedKnownTypes TC = true ->
  whenAvailable isNominal (getStringType TC) = true
  /\ whenAvailable isNominal (getBoolType TC) = true
  /\ whenAvailable (isForeignCounterpart TC) (getNSStringType TC) = true
  /\ whenAvailable (isForeignCounterpart TC) (getObjCBoolType TC) = true
  /\ whenAvailable (isForeignCounterpart TC) (getNSArrayType TC) = true
  /\ whenAvailable (isForeignCounterpart TC) (getNSDictionaryType TC) = true
  /\ whenAvailable (isForeignCounterpart TC) (getNSSetType TC) = true
  /\ whenAvailable notOptionalDecl (getArrayDecl (Context TC)) = true
  /\ whenAvailable notOptionalDecl (getDictionaryDecl (Context TC)) = true
  /\ whenAvailable notOptionalDecl (getSetDecl (Context TC)) = true.
Proof.
  unfold wellFormedKnownTypes. rewrite !andb_true_iff. tauto.
Qed.

(** A type that is not nominal is neither the native string type nor the
    native boolean type of a well-formed registry. *)
Lemma not_nominal_not_native t :
  wellFormedKnownTypes TC = true ->
  isNominal t = false ->
  nonNullAndEqual (getStringType TC) t = false
  /\ nonNullAndEqual (getBoolType TC) t = false.
Proof.
  intros Hwf Hn. apply wellFormedKnownTypes_parts in Hwf.
  destruct Hwf as (Hs & Hb & _).
  split; apply nonNullAndEqual_false_iff; intros E; rewrite E in *;
    simpl in *; congruence.
Qed.

Lemma anyNominalIsKnown_optional k v decl :
  whenAvailable notOptionalDecl decl = true ->
  anyNominalIsKnown (OptionalTy k v) decl = false.
Proof.
  destruct decl as [d|]; simpl; [|reflexivity].
  apply anyNominalIs_optional.
Qed.

(** An optional type matches no rule of the leaf mapper. *)
Lemma leaf_optional k v clangTy hint :
  wellFormedKnownTypes TC = true ->
  getLoweredCBridgedType TC (OptionalTy k v) clangTy hint
  = Value (Some (OptionalTy k v)).
Proof.
  intros Hwf.
  destruct (not_nominal_not_native (OptionalTy k v) Hwf
              (isNominal_OptionalTy k v)) as [Hs Hb].
  apply wellFormedKnownTypes_parts in Hwf.
  destruct Hwf as (_ & _ & _ & _ & _ & _ & _ & Ha & Hd & Hset).
  apply leaf_unchanged; try assumption; try discriminate;
    apply anyNominalIsKnown_optional; assumption.
Qed.

(** C10: only one optional layer is looked through, and what it wraps goes
    to the leaf mapper, where an optional type matches no rule; so under a
    foreign representation [Optional<Optional<V>>] comes back as it is for
    every [V], bridgeable or not. *)
Theorem double_optional_unchanged pattern k1 k2 V rep purpose :
  wellFormedKnownTypes TC = true ->
  In rep foreignRepresentations ->
  getLoweredBridgedType TC pattern (OptionalTy k1 (OptionalTy k2 V)) rep purpose
  = match getLoweredCBridgedType TC (OptionalTy k2 V) (clangTyOf pattern)
                                 false with
    | Value (Some ty) => Value (Some (OptionalTy k1 ty))
    | Value None => Value None
    | NullDereference => NullDereference
    end
  /\ getLoweredCBridgedType TC (OptionalTy k2 V) (clangTyOf pattern) false
     = Value (Some (OptionalTy k2 V))
  /\ getLoweredBridgedType TC pattern (OptionalTy k1 (OptionalTy k2 V))
                           rep purpose
     = Value (Some (OptionalTy k1 (OptionalTy k2 V))).
Proof.
  intros Hwf Hrep. rewrite getLoweredBridgedType_optional by assumption.
  rewrite leaf_optional by assumption. auto.
Qed.

(** ** Which rule produced a result *)

Lemma matchesNoRule_unchanged t clangTy hint :
  matchesNoRule TC t -> getLoweredCBridgedType TC t clangTy hint = Value (Some t).
Proof.
  intros (Hs & Hb & Hm & He & Hf & Ha & Hd & Hset).
  apply leaf_unchanged; assumption.
Qed.

(** The result of the leaf mapper, by the rule that gave it. *)
Lemma leaf_inversion t (clangTy : option ClangType) hint r :
  getLoweredCBridgedType TC t clangTy hint = Value (Some r) ->
  (getStringType TC = Some t
   /\ (if hint && nonNull clangTy then OptionalType_get (getNSStringType TC)
       else Value (getNSStringType TC)) = Value (Some r))
  \/ (getStringType TC <> Some t /\ getBoolType TC = Some t
      /\ ((nonNullAndBoolean clangTy = true /\ r = t)
          \/ getObjCBoolType TC = Some r))
  \/ (exists inst rp, t = MetatypeTy inst rp
        /\ r = MetatypeTy inst (Some MetatypeObjC))
  \/ (exists inst rp, t = ExistentialMetatypeTy inst rp
        /\ r = ExistentialMetatypeTy inst (Some MetatypeObjC))
  \/ (exists input result info, t = FunctionTy input result info
        /\ exists info', r = FunctionTy input result info'
             /\ getSILRepresentation info' <> Thick)
  \/ (exists bridgedTy,
        In bridgedTy [getNSArrayType TC; getNSDictionaryType TC;
                      getNSSetType TC]
        /\ (if hint && nonNull clangTy then OptionalType_get bridgedTy
            else Value bridgedTy) = Value (Some r))
  \/ (r = t /\ matchesNoRule TC t).
Proof.
  unfold getLoweredCBridgedType. intros H.
  destruct (nonNullAndEqual (getStringType TC) t) eqn:Hs.
  { left. apply nonNullAndEqual_true_iff in Hs. auto. }
  right.
  destruct (nonNullAndEqual (getBoolType TC) t) eqn:Hb.
  { left. apply nonNullAndEqual_true_iff in Hb.
    apply nonNullAndEqual_false_iff in Hs. repeat split; try assumption.
    simpl in H. destruct (nonNullAndBoolean clangTy); simpl in H.
    - left. split; congruence.
    - right. congruence. }
  right. cbn [orElse] in H. rewrite !collection_block in H.
  assert (Htail :
    forall rest : Flow (Evaluated (option Ty)),
      (rest ;;;
       (if anyNominalIsKnown t (getArrayDecl (Context TC))
        then Return (if hint && nonNull clangTy
                     then OptionalType_get (getNSArrayType TC)
                     else Value (getNSArrayType TC))
        else FallThrough) ;;;
       (if anyNominalIsKnown t (getDictionaryDecl (Context TC))
        then Return (if hint && nonNull clangTy
                     then OptionalType_get (getNSDictionaryType TC)
                     else Value (getNSDictionaryType TC))
        else FallThrough) ;;;
       (if anyNominalIsKnown t (getSetDecl (Context TC))
        then Return (if hint && nonNull clangTy
                     then OptionalType_get (getNSSetType TC)
                     else Value (getNSSetType TC))
        else FallThrough) ;;;
       Value (Some t)) = Value (Some r) ->
      rest = FallThrough ->
      (exists bridgedTy,
         In bridgedTy [getNSArrayType TC; getNSDictionaryType TC;
                       getNSSetType TC]
         /\ (if hint && nonNull clangTy then OptionalType_get bridgedTy
             else Value bridgedTy) = Value (Some r))
      \/ (r = t
          /\ anyNominalIsKnown t (getArrayDecl (Context TC)) = false
          /\ anyNominalIsKnown t (getDictionaryDecl (Context TC)) = false
          /\ anyNominalIsKnown t (getSetDecl (Context TC)) = false)).
  { intros rest Hrest ->. cbn [orElse] in Hrest.
    destruct (anyNominalIsKnown t (getArrayDecl (Context TC))).
    { left. eexists. split; [|exact Hrest]. simpl. auto. }
    destruct (anyNominalIsKnown t (getDictionaryDecl (Context TC))).
    { left. eexists. split; [|exact Hrest]. simpl. auto. }
    destruct (anyNominalIsKnown t (getSetDecl (Context TC))).
    { left. eexists. split; [|exact Hrest]. simpl. auto. }
    right. cbn [orElse] in Hrest. injection Hrest as <-. auto. }
  destruct t as [d args|elts|inst rp|inst rp|input result info|ps|name].
  - do 3 right.
    destruct (Htail _ H eq_refl) as [Hc | (-> & Ha & Hd & Hset)];
      [left; exact Hc | right].
    split; [reflexivity|]. repeat split; try assumption; discriminate.
  - do 3 right.
    destruct (Htail _ H eq_refl) as [Hc | (-> & Ha & Hd & Hset)];
      [left; exact Hc | right].
    split; [reflexivity|]. repeat split; try assumption; discriminate.
  - destruct (nonNull (getClassOrBoundGenericClass inst)) eqn:Hcls.
    + left. cbn [orElse] in H. injection H as <-. eauto.
    + do 3 right.
      destruct (Htail _ H eq_refl) as [Hc | (-> & Ha & Hd & Hset)];
        [left; exact Hc | right].
      split; [reflexivity|]. repeat split; try assumption; try discriminate.
      intros inst' r' E. injection E as <- <-. left.
      destruct (getClassOrBoundGenericClass inst); [discriminate|reflexivity].
  - right. destruct (isObjCExistentialType inst) eqn:Hobjc.
    + left. cbn [orElse] in H. injection H as <-. eauto.
    + do 2 right.
      destruct (Htail _ H eq_refl) as [Hc | (-> & Ha & Hd & Hset)];
        [left; exact Hc | right].
      split; [reflexivity|]. repeat split; try assumption; try discriminate.
      intros inst' r' E. injection E as <- <-. left. assumption.
  - do 2 right. left. exists input, result, info. split; [reflexivity|].
    cbn [orElse] in H.
    destruct (getSILRepresentation info) eqn:Hrep; cbn [orElse] in H;
      injection H as <-;
      try (exists info; split; [reflexivity | congruence]).
    exists (withSILRepresentation info Block). split; [reflexivity|].
    discriminate.
  - do 3 right.
    destruct (Htail _ H eq_refl) as [Hc | (-> & Ha & Hd & Hset)];
      [left; exact Hc | right].
    split; [reflexivity|]. repeat split; try assumption; discriminate.
  - do 3 right.
    destruct (Htail _ H eq_refl) as [Hc | (-> & Ha & Hd & Hset)];
      [left; exact Hc | right].
    split; [reflexivity|]. repeat split; try assumption; discriminate.
Qed.

(** ** Bridged types are fixed points *)

Lemma anyNominalIsKnown_no_nominal t decl :
  getAnyNominal t = None -> anyNominalIsKnown t decl = false.
Proof.
  intros H. destruct decl as [d|]; [|reflexivity].
  unfold anyNominalIsKnown, anyNominalIs. rewrite H. reflexivity.
Qed.

(** A foreign counterpart matches no rule. *)
Lemma foreign_counterpart_matchesNoRule r :
  isForeignCounterpart TC r = true -> matchesNoRule TC r.
Proof.
  unfold isForeignCounterpart. rewrite !andb_true_iff, !negb_true_iff.
  intros (((((Hn & Hs) & Hb) & Ha) & Hd) & Hset).
  destruct r; try discriminate.
  repeat split; try assumption; discriminate.
Qed.

Lemma foreign_counterpart_not_optional r :
  isForeignCounterpart TC r = true -> getAnyOptionalObjectType r = None.
Proof.
  unfold isForeignCounterpart. rewrite !andb_true_iff.
  intros (((((Hn & _) & _) & _) & _) & _).
  apply isNominal_not_optional. assumption.
Qed.

(** In a well-formed registry a type that is not nominal, is not a thick
    function and not a metatype awaiting the ObjC representation matches no
    rule. *)
Lemma structural_matchesNoRule r :
  wellFormedKnownTypes TC = true ->
  isNominal r = false ->
  getAnyNominal r = None ->
  (forall inst rp, r = MetatypeTy inst rp -> rp = Some MetatypeObjC) ->
  (forall inst rp, r = ExistentialMetatypeTy inst rp -> rp = Some MetatypeObjC) ->
  (forall input result info, r = FunctionTy input result info ->
     getSILRepresentation info <> Thick) ->
  matchesNoRule TC r.
Proof.
  intros Hwf Hn Hnom Hm He Hf.
  destruct (not_nominal_not_native r Hwf Hn) as [Hs Hb].
  repeat split; try assumption;
    try (apply anyNominalIsKnown_no_nominal; assumption).
  - intros inst rp E. right. eapply Hm. eassumption.
  - intros inst rp E. right. eapply He. eassumption.
Qed.

(** What the leaf mapper gives under a false hint it gives back unchanged
    under either hint, and it is an optional only if its source was. *)
Lemma leaf_idempotent t clangTy r :
  wellFormedKnownTypes TC = true ->
  getLoweredCBridgedType TC t clangTy false = Value (Some r) ->
  (forall hint, getLoweredCBridgedType TC r clangTy hint = Value (Some r))
  /\ (getAnyOptionalObjectType t = None -> getAnyOptionalObjectType r = None).
Proof.
  intros Hwf H.
  assert (Hparts := wellFormedKnownTypes_parts Hwf).
  destruct Hparts as (_ & _ & Hns & Hob & Hna & Hnd & Hnset & _).
  assert (Hcounterpart : forall x, x = Some r ->
            whenAvailable (isForeignCounterpart TC) x = true ->
            (forall hint,
               getLoweredCBridgedType TC r clangTy hint = Value (Some r))
            /\ (getAnyOptionalObjectType t = None ->
                getAnyOptionalObjectType r = None)).
  { intros x -> Hx. simpl in Hx. split.
    - intros hint. apply matchesNoRule_unchanged.
      apply foreign_counterpart_matchesNoRule. assumption.
    - intros _. apply foreign_counterpart_not_optional. assumption. }
  apply leaf_inversion in H. simpl in H.
  destruct H as [(Hs & Hr) | [(Hs & Hb & [(Hbool & ->) | Hr])
    | [(inst & rp & -> & ->) | [(inst & rp & -> & ->)
    | [(input & result & info & -> & info' & -> & Hrep)
    | [(x & Hin & Hr) | (-> & Hnone)]]]]]].
  - injection Hr as Hr. eapply Hcounterpart; eassumption.
  - split; [|auto]. intros hint. rewrite leaf_bool by assumption.
    rewrite Hbool. reflexivity.
  - eapply Hcounterpart; eassumption.
  - split; [|auto]. intros hint. apply matchesNoRule_unchanged.
    apply structural_matchesNoRule; try assumption; try reflexivity;
      try discriminate.
    intros ? ? E. injection E as _ <-. reflexivity.
  - split; [|auto]. intros hint. apply matchesNoRule_unchanged.
    apply structural_matchesNoRule; try assumption; try reflexivity;
      try discriminate.
    intros ? ? E. injection E as _ <-. reflexivity.
  - split; [|auto]. intros hint. apply matchesNoRule_unchanged.
    apply structural_matchesNoRule; try assumption; try reflexivity;
      try discriminate.
    intros ? ? ? E. injection E as _ _ <-. assumption.
  - injection Hr as Hr. destruct Hin as [<- | [<- | [<- | []]]];
      eapply Hcounterpart; eassumption.
  - split; [|auto]. intros hint. apply matchesNoRule_unchanged. assumption.
Qed.

(** The hint only ever adds one plain optional around what the leaf mapper
    gives without it, and only when the pattern has a Clang type. *)
Lemma leaf_hint_cases t (clangTy : option ClangType) r :
  getLoweredCBridgedType TC t clangTy true = Value (Some r) ->
  getLoweredCBridgedType TC t clangTy false = Value (Some r)
  \/ (nonNull clangTy = true
      /\ exists y, r = OptionalTy OTK_Optional y
                   /\ getLoweredCBridgedType TC t clangTy false
                      = Value (Some y)).
Proof.
  unfold getLoweredCBridgedType. intros H.
  assert (Hwrap : forall x : option Ty,
            (if true && nonNull clangTy then OptionalType_get x else Value x)
            = Value (Some r) ->
            (if false && nonNull clangTy then OptionalType_get x else Value x)
            = Value (Some r)
            \/ (nonNull clangTy = true
                /\ exists y, r = OptionalTy OTK_Optional y
                     /\ (if false && nonNull clangTy
                         then OptionalType_get x else Value x)
                        = Value (Some y))).
  { intros x Hx. simpl in *. destruct (nonNull clangTy); [|auto].
    destruct x as [y|]; [|discriminate]. simpl in Hx. injection Hx as <-.
    right. eauto. }
  destruct (nonNullAndEqual (getStringType TC) t).
  { cbn [orElse] in *. auto. }
  destruct (nonNullAndEqual (getBoolType TC) t).
  { destruct (nonNullAndBoolean clangTy); cbn [orElse] in *; left; exact H. }
  cbn [orElse] in *. rewrite !collection_block in *.
  do 3 (match type of H with
        | context [orElse ?b _] =>
            destruct b; cbn [orElse] in H |- *; [left; exact H|]
        end).
  destruct (anyNominalIsKnown t (getArrayDecl (Context TC)));
    cbn [orElse] in *; [auto|].
  destruct (anyNominalIsKnown t (getDictionaryDecl (Context TC)));
    cbn [orElse] in *; [auto|].
  destruct (anyNominalIsKnown t (getSetDecl (Context TC)));
    cbn [orElse] in *; [auto|].
  left. exact H.
Qed.

(** The core mapper gives back unchanged what it gave. *)
Lemma getLoweredBridgedType_idempotent pattern t rep purpose r :
  wellFormedKnownTypes TC = true ->
  getLoweredBridgedType TC pattern t rep purpose = Value (Some r) ->
  getLoweredBridgedType TC pattern r rep purpose = Value (Some r).
Proof.
  intros Hwf H.
  destruct (in_dec SILFunctionTypeRepresentation_eq_dec rep
                   nativeRepresentations) as [Hnat|Hnat].
  { apply getLoweredBridgedType_native. assumption. }
  assert (Hrep : In rep foreignRepresentations).
  { destruct rep; simpl in *; tauto. }
  rewrite getLoweredBridgedType_foreign in H by assumption.
  destruct (getAnyOptionalObjectType t) as [[k v]|] eqn:Hopt.
  - destruct (getLoweredCBridgedType TC v (clangTyOf pattern) false)
      as [[b|]|] eqn:Hb; try discriminate.
    injection H as <-.
    rewrite getLoweredBridgedType_optional by assumption.
    destruct (leaf_idempotent _ _ _ Hwf Hb) as [Hfix _].
    rewrite Hfix. reflexivity.
  - assert (Hcases :
      getLoweredCBridgedType TC t (clangTyOf pattern) false = Value (Some r)
      \/ exists y, r = OptionalTy OTK_Optional y
           /\ getLoweredCBridgedType TC t (clangTyOf pattern) false
              = Value (Some y)).
    { destruct (isForResult purpose); [|auto].
      destruct (leaf_hint_cases _ _ _ H) as [E | (_ & y & E1 & E2)]; eauto. }
    destruct Hcases as [Hr | (y & -> & Hy)].
    + destruct (leaf_idempotent _ _ _ Hwf Hr) as [Hfix Hno].
      rewrite getLoweredBridgedType_foreign by assumption.
      rewrite (Hno Hopt). apply Hfix.
    + destruct (leaf_idempotent _ _ _ Hwf Hy) as [Hfix _].
      rewrite getLoweredBridgedType_optional by assumption.
      rewrite Hfix. reflexivity.
Qed.

(** In a well-formed registry only a tuple is bridged to a tuple. *)
Lemma bridged_to_tuple pattern t rep purpose elts :
  wellFormedKnownTypes TC = true ->
  getLoweredBridgedType TC pattern t rep purpose = Value (Some (TupleTy elts)) ->
  t = TupleTy elts.
Proof.
  intros Hwf H.
  destruct (in_dec SILFunctionTypeRepresentation_eq_dec rep
                   nativeRepresentations) as [Hnat|Hnat].
  { rewrite getLoweredBridgedType_native in H by assumption. congruence. }
  assert (Hrep : In rep foreignRepresentations).
  { destruct rep; simpl in *; tauto. }
  rewrite getLoweredBridgedType_foreign in H by assumption.
  destruct (getAnyOptionalObjectType t) as [[k v]|].
  { destruct (getLoweredCBridgedType TC v (clangTyOf pattern) false)
      as [[b|]|]; discriminate. }
  assert (Hparts := wellFormedKnownTypes_parts Hwf).
  destruct Hparts as (_ & _ & Hns & Hob & Hna & Hnd & Hnset & _).
  assert (Hcounterpart : forall x : option Ty,
            whenAvailable (isForeignCounterpart TC) x = true ->
            (if isForResult purpose && nonNull (clangTyOf pattern)
             then OptionalType_get x else Value x)
            <> Value (Some (TupleTy elts))).
  { intros [x|] Hx Hr; simpl in Hx.
    - destruct (isForResult purpose && nonNull (clangTyOf pattern));
        simpl in Hr; [discriminate|].
      injection Hr as ->. discriminate.
    - destruct (isForResult purpose && nonNull (clangTyOf pattern));
        discriminate. }
  apply leaf_inversion in H.
  destruct H as [(Hs & Hr) | [(Hs & Hb & [(Hbool & E) | Hr])
    | [(inst & rp & _ & E) | [(inst & rp & _ & E)
    | [(input & result & info & _ & info' & E & _)
    | [(x & Hin & Hr) | (E & _)]]]]]]; try discriminate; try congruence.
  - exfalso. exact (Hcounterpart _ Hns Hr).
  - exfalso. rewrite Hr in Hob. simpl in Hob. discriminate.
  - exfalso. destruct Hin as [<- | [<- | [<- | []]]];
      [ exact (Hcounterpart _ Hna Hr)
      | exact (Hcounterpart _ Hnd Hr)
      | exact (Hcounterpart _ Hnset Hr) ].
Qed.

Lemma returns_result_inv rep pattern result suppressOptional diags r :
  returns (getBridgedResultType TC rep pattern result suppressOptional) diags r
  <-> getLoweredBridgedType TC pattern result rep
        (if suppressOptional then ForNonOptionalResult else ForResult)
      = Value (Some r).
Proof.
  unfold returns. rewrite getBridgedResultType_run.
  destruct (getLoweredBridgedType TC pattern result rep _) as [[ty|]|];
    split; intros H; try discriminate; [injection H as -> | injection H as ->];
    reflexivity.
Qed.

Lemma returns_input_inv rep pattern input diags r :
  (forall elts, input <> TupleTy elts) ->
  returns (getBridgedInputType TC rep pattern input) diags r
  <-> getLoweredBridgedType TC pattern input rep ForArgument = Value (Some r).
Proof.
  intros Hnt. unfold returns. rewrite getBridgedInputType_run by assumption.
  destruct (getLoweredBridgedType TC pattern input rep _) as [[ty|]|];
    split; intros H; try discriminate; [injection H as -> | injection H as ->];
    reflexivity.
Qed.

Lemma is_tuple_dec (t : Ty) :
  {elts | t = TupleTy elts} + {forall elts, t <> TupleTy elts}.
Proof.
  destruct t; try (right; intros; discriminate). left. eauto.
Qed.

(** C7: in a well-formed registry, bridging what bridging gave, under the
    same representation, pattern and purpose, gives it back unchanged; this
    holds of the core mapper for every type, representation and purpose,
    and of both entry points (so of the foreign string type, of a metatype
    in the ObjC representation and of a function type in the block
    representation). *)
Theorem idempotence rep pattern :
  wellFormedKnownTypes TC = true ->
  (forall t purpose r,
     getLoweredBridgedType TC pattern t rep purpose = Value (Some r) ->
     getLoweredBridgedType TC pattern r rep purpose = Value (Some r))
  /\ (forall result suppressOptional diags r,
        returns (getBridgedResultType TC rep pattern result suppressOptional)
                diags r ->
        returns (getBridgedResultType TC rep pattern r suppressOptional)
                diags r)
  /\ (forall input diags r,
        returns (getBridgedInputType TC rep pattern input) diags r ->
        returns (getBridgedInputType TC rep pattern r) diags r).
Proof.
  intros Hwf. split; [|split].
  - intros t purpose r. apply getLoweredBridgedType_idempotent. assumption.
  - intros result sup diags r H.
    apply returns_result_inv in H. apply returns_result_inv.
    eapply getLoweredBridgedType_idempotent; eassumption.
  - intros input diags r H.
    destruct (is_tuple_dec input) as [[elts ->] | Hnt].
    + assert (Hall : forall j elt, nth_error elts j = Some elt ->
                getLoweredBridgedType TC (getTupleElementType pattern j)
                                      (eltType elt) rep ForArgument
                <> Value None).
      { unfold returns, getBridgedInputType, bind in H.
        destruct (bridgeTupleElements TC rep pattern elts 0 [] false diags)
          as [[res|msg|] diags'] eqn:Hrun; try discriminate.
        intros j elt Hj.
        exact (bridgeTupleElements_inv rep pattern elts 0 [] false diags
                 res diags' Hrun j elt Hj). }
      destruct (getBridgedInputType_tuple rep pattern elts diags Hall)
        as (elts' & Hret & Hlen & Hnth).
      assert (r = TupleTy elts') as ->.
      { unfold returns in H, Hret. rewrite H in Hret. congruence. }
      assert (Hfix : forall j elt', nth_error elts' j = Some elt' ->
                getLoweredBridgedType TC (getTupleElementType pattern j)
                                      (eltType elt') rep ForArgument
                = Value (Some (eltType elt'))).
      { intros j elt' Hj.
        destruct (nth_error elts j) as [elt|] eqn:He.
        - destruct (Hnth j elt He) as (b & Hb & Hj').
          rewrite Hj in Hj'. injection Hj' as ->. simpl.
          eapply getLoweredBridgedType_idempotent; eassumption.
        - apply nth_error_None in He. rewrite <- Hlen in He.
          apply nth_error_None in He. congruence. }
      assert (Hall' : forall j elt', nth_error elts' j = Some elt' ->
                getLoweredBridgedType TC (getTupleElementType pattern j)
                                      (eltType elt') rep ForArgument
                <> Value None).
      { intros j elt' Hj. rewrite (Hfix j elt' Hj). discriminate. }
      destruct (getBridgedInputType_tuple rep pattern elts' diags Hall')
        as (elts'' & Hret' & Hlen' & Hnth').
      rewrite (fields_unchanged rep pattern elts' elts'' Hlen' Hnth' Hfix)
        in Hret'.
      exact Hret'.
    + apply returns_input_inv in H; [|assumption].
      assert (Hnt' : forall elts, r <> TupleTy elts).
      { intros elts ->. apply bridged_to_tuple in H; [|assumption].
        exact (Hnt _ H). }
      apply returns_input_inv; [assumption|].
      eapply getLoweredBridgedType_idempotent; eassumption.
Qed.

(** ** Results *)



(** A tuple matches no rule of the leaf mapper. *)
Lemma leaf_tuple elts clangTy hint :
  wellFormedKnownTypes TC = true ->
  getLoweredCBridgedType TC (TupleTy elts) clangTy hint
  = Value (Some (TupleTy elts)).
Proof.
  intros Hwf. apply matchesNoRule_unchanged.
  apply structural_matchesNoRule; try assumption; try reflexivity;
    discriminate.
Qed.


End Properties.

(** ** Concrete runs *)

Import Sample.

(** Scenario B: a native array under the thick representation. *)
Lemma native_pass_through_witness :
  returns (getBridgedInputType withFoundation Thick Opaque (ArrayOf Int))
          [] (ArrayOf Int)
  /\ returns (getBridgedResultType withFoundation Thick Opaque (ArrayOf Int)
                                   false)
             [] (ArrayOf Int).
Proof.
  apply (native_pass_through withFoundation Thick Opaque (ArrayOf Int) false []).
  simpl. auto.
Defined.

(** A tuple of which one element changes: [(count: Int, name: String)]. *)
Lemma tuple_minimality_witness :
  exists elts',
    returns (getBridgedInputType withFoundation ObjCMethod objcMethodArgs
               (TupleTy [labeled "count" Int; labeled "name" String])) []
            (TupleTy elts')
    /\ List.length elts' = 2
    /\ nth_error elts' 0 = Some (labeled "count" Int)
    /\ nth_error elts' 1 = Some (labeled "name" NSString).
Proof.
  destruct (tuple_minimality withFoundation ObjCMethod objcMethodArgs
              [labeled "count" Int; labeled "name" String] [])
    as (elts' & Hret & Hlen & Hnth & _).
  - intros [|[|[|j]]] elt H; simpl in H; try discriminate;
      injection H as <-; vm_compute; discriminate.
  - exists elts'. split; [exact Hret|]. split; [exact Hlen|]. split.
    + destruct (Hnth 0 (labeled "count" Int) eq_refl)
        as (elt' & b & H0 & Hb & _ & _ & _ & _ & Hsame).
      vm_compute in Hb. injection Hb as <-. rewrite H0, Hsame; reflexivity.
    + destruct (Hnth 1 (labeled "name" String) eq_refl)
        as (elt' & b & H1 & Hb & Hty & Hname & Hdef & Hvar).
      vm_compute in Hb. injection Hb as <-. rewrite H1.
      destruct elt'; simpl in *. destruct Hvar as [-> _]. subst.
      reflexivity.
Defined.

(** The failing input of C8: a [String] result of an ObjC method whose
    pattern has a Clang type, the standard library loaded and Foundation
    not. *)
Lemma null_counterpart_is_dereferenced_witness :
  getLoweredCBridgedType stdlibOnly String (clangTyOf nsStringPtr) true
  = NullDereference
  /\ getLoweredBridgedType stdlibOnly nsStringPtr String ObjCMethod ForResult
     = NullDereference
  /\ getBridgedResultType stdlibOnly ObjCMethod nsStringPtr String false []
     = (Crashed, [])
  /\ failsOn (getBridgedResultType stdlibOnly ObjCMethod nsStringPtr String
                                   true) [] String
  /\ (forall k,
        failsOn (getBridgedResultType stdlibOnly ObjCMethod nsStringPtr
                                      (OptionalTy k String) false)
                [] (OptionalTy k String)).
Proof.
  apply (null_counterpart_is_dereferenced stdlibOnly ObjCMethod nsStringPtr
           String []).
  - simpl. auto.
  - reflexivity.
  - reflexivity.
  - reflexivity.
  - reflexivity.
Defined.

(** The claim of C1 at its own instance: an argument of the native string
    type, ObjC method, Clang type present.  The claim has the hint raised
    (the purpose is not non-optional-result) and the result an optional;
    the code lowers the hint and gives the bare foreign string type. *)
Lemma hint_for_argument_counterexample :
  getAnyOptionalObjectType String = None
  /\ isClangType nsStringPtr = true
  /\ getLoweredBridgedType withFoundation nsStringPtr String ObjCMethod
                           ForArgument
     = Value (Some NSString)
  /\ getLoweredBridgedType withFoundation nsStringPtr String ObjCMethod
                           ForArgument
     <> Value (Some (OptionalTy OTK_Optional NSString))
  /\ getLoweredBridgedType withFoundation nsStringPtr String ObjCMethod
                           ForArgument
     <> getLoweredCBridgedType withFoundation String (clangTyOf nsStringPtr)
          (if BridgedTypePurpose_eq_dec ForArgument ForNonOptionalResult
           then false else true).
Proof.
  repeat split; try reflexivity; vm_compute; discriminate.
Qed.

Lemma hint_is_result_purpose_witness :
  getLoweredBridgedType withFoundation nsStringPtr String ObjCMethod ForArgument
  = getLoweredCBridgedType withFoundation String (clangTyOf nsStringPtr)
                           (isForResult ForArgument)
  /\ (getStringType withFoundation = Some String ->
      isClangType nsStringPtr = true ->
      getLoweredBridgedType withFoundation nsStringPtr String ObjCMethod
                            ForArgument
      = Value (getNSStringType withFoundation)).
Proof.
  apply (hint_is_result_purpose withFoundation nsStringPtr String ObjCMethod
                                ForArgument).
  - simpl. auto.
  - reflexivity.
Defined.

(** Scenario C: an optional array under the block representation. *)
Lemma optional_transparency_witness :
  getLoweredBridgedType withFoundation (FromClang (ClangObjCPointer "NSArray"))
    (OptionalTy OTK_ImplicitlyUnwrappedOptional (ArrayOf Int)) Block ForArgument
  = Value (Some (OptionalTy OTK_ImplicitlyUnwrappedOptional NSArray)).
Proof.
  destruct (optional_transparency withFoundation
              (FromClang (ClangObjCPointer "NSArray"))
              OTK_ImplicitlyUnwrappedOptional (ArrayOf Int) Block ForArgument)
    as [Hforeign _].
  destruct Hforeign as [Heq _].
  - simpl. auto.
  - rewrite Heq. reflexivity.
Defined.

Lemma boolean_special_case_witness :
  (isClangType (FromClang ClangBool) = true ->
   isBooleanType (getClangType (FromClang ClangBool)) = true ->
   getLoweredBridgedType withFoundation (FromClang ClangBool) Bool ObjCMethod
                         ForArgument = Value (Some Bool))
  /\ (isClangType (FromClang ClangBool) = true ->
      isBooleanType (getClangType (FromClang ClangBool)) = false ->
      getLoweredBridgedType withFoundation (FromClang ClangBool) Bool
                            ObjCMethod ForArgument
      = Value (getObjCBoolType withFoundation))
  /\ (isClangType (FromClang ClangBool) = false ->
      getLoweredBridgedType withFoundation (FromClang ClangBool) Bool
                            ObjCMethod ForArgument
      = Value (getObjCBoolType withFoundation)).
Proof.
  apply (boolean_special_case withFoundation (FromClang ClangBool) Bool
                              ObjCMethod ForArgument).
  - simpl. auto.
  - reflexivity.
  - discriminate.
  - reflexivity.
Defined.

(** Scenario D: a thick function type under the ObjC method
    representation. *)
Lemma function_type_rule_witness :
  exists info',
    getLoweredBridgedType withFoundation Opaque (FunctionTy Int String thickInfo)
                          ObjCMethod ForArgument
    = Value (Some (FunctionTy Int String info'))
    /\ getSILRepresentation info' = Block
    /\ extIsNoReturn info' = false
    /\ extIsAutoClosure info' = false
    /\ extIsNoEscape info' = true
    /\ extThrows info' = true.
Proof.
  destruct (function_type_rule withFoundation Opaque Int String thickInfo
              ObjCMethod ForArgument) as [_ Hthick].
  - simpl. auto.
  - discriminate.
  - discriminate.
  - apply Hthick. reflexivity.
Defined.

Lemma idempotence_witness :
  getLoweredBridgedType withFoundation nsStringPtr
    (OptionalTy OTK_Optional NSString) ObjCMethod ForResult
  = Value (Some (OptionalTy OTK_Optional NSString))
  /\ getLoweredBridgedType withFoundation Opaque
       (MetatypeTy NSString (Some MetatypeObjC)) ObjCMethod ForArgument
     = Value (Some (MetatypeTy NSString (Some MetatypeObjC))).
Proof.
  split.
  - apply (proj1 (idempotence withFoundation ObjCMethod nsStringPtr eq_refl)
             String ForResult).
    reflexivity.
  - apply (proj1 (idempotence withFoundation ObjCMethod Opaque eq_refl)
             (MetatypeTy NSString (Some MetatypeThick)) ForArgument).
    reflexivity.
Defined.



(** A doubly optional native string stays as it is, although a singly
    optional one is bridged. *)
Lemma double_optional_unchanged_witness :
  getLoweredBridgedType withFoundation nsStringPtr
    (OptionalTy OTK_Optional (OptionalTy OTK_Optional String)) ObjCMethod
    ForArgument
  = Value (Some (OptionalTy OTK_Optional (OptionalTy OTK_Optional String))).
Proof.
  apply (double_optional_unchanged withFoundation nsStringPtr OTK_Optional
           OTK_Optional String ObjCMethod ForArgument).
  - reflexivity.
  - simpl. auto.
Defined.

Example single_optional_string_is_bridged :
  getLoweredBridgedType withFoundation nsStringPtr
    (OptionalTy OTK_Optional String) ObjCMethod ForArgument
  = Value (Some (OptionalTy OTK_Optional NSString)).
Proof. reflexivity. Qed.

(** Scenario A: both elements of [(String, Bool)] change. *)
Example scenario_A :
  getBridgedInputType withFoundation ObjCMethod
    (FromClangTuple [ClangObjCPointer "NSString"; ClangSignedChar])
    (TupleTy [unlabeled String; unlabeled Bool]) []
  = (Returned (TupleTy [unlabeled NSString; unlabeled ObjCBool]), []).
Proof. reflexivity. Qed.

(** * Further properties of the bridging routines *)

Section FurtherProperties.

Context {AbstractionPattern ClangType : Type}.
Context {patternOps : AbstractionPatternOps AbstractionPattern ClangType}.
Variable TC : TypeConverter.

(** ** What the result depends on *)

(** The loop depends on the representation only through the core mapper. *)
Lemma bridgeTupleElements_rep_ext rep1 rep2 pattern :
  (forall p t, getLoweredBridgedType TC p t rep1 ForArgument
               = getLoweredBridgedType TC p t rep2 ForArgument) ->
  forall elts i bridgedFields changed diags,
    bridgeTupleElements TC rep1 pattern elts i bridgedFields changed diags
    = bridgeTupleElements TC rep2 pattern elts i bridgedFields changed diags.
Proof.
  intros Hext. induction elts as [|elt rest IH]; intros i acc ch diags.
  - reflexivity.
  - rewrite !(bridgeTupleElements_cons TC). rewrite Hext.
    destruct (getLoweredBridgedType TC (getTupleElementType pattern i)
                (eltType elt) rep2 ForArgument) as [[b|]|]; try reflexivity.
    destruct (negb (isEqual b (eltType elt))); apply IH.
Qed.

(** X1: the three foreign representations are bridged alike: the core
    mapper and both entry points give the same outcome, diagnostics
    included, under C function pointer, ObjC method and block. *)
Theorem foreign_representations_agree rep1 rep2 :
  In rep1 foreignRepresentations ->
  In rep2 foreignRepresentations ->
  (forall pattern t purpose,
     getLoweredBridgedType TC pattern t rep1 purpose
     = getLoweredBridgedType TC pattern t rep2 purpose)
  /\ (forall pattern input diags,
        getBridgedInputType TC rep1 pattern input diags
        = getBridgedInputType TC rep2 pattern input diags)
  /\ (forall pattern result suppressOptional diags,
        getBridgedResultType TC rep1 pattern result suppressOptional diags
        = getBridgedResultType TC rep2 pattern result suppressOptional diags).
Proof.
  intros H1 H2.
  assert (Hcore : forall pattern t purpose,
            getLoweredBridgedType TC pattern t rep1 purpose
            = getLoweredBridgedType TC pattern t rep2 purpose).
  { intros pattern t purpose.
    rewrite !(getLoweredBridgedType_foreign TC) by assumption. reflexivity. }
  split; [exact Hcore|]. split.
  - intros pattern input diags.
    destruct (is_tuple_dec input) as [[elts ->] | Hnt].
    + unfold getBridgedInputType, bind.
      rewrite (bridgeTupleElements_rep_ext rep1 rep2 pattern); [reflexivity|].
      intros p t. apply Hcore.
    + rewrite !(getBridgedInputType_run TC) by assumption.
      rewrite Hcore. reflexivity.
  - intros pattern result sup diags.
    rewrite !(getBridgedResultType_run TC). rewrite Hcore. reflexivity.
Qed.

(** X2: an argument is bridged like a non-optional result: the core mapper
    gives the same type for the two purposes, and on an input that is not a
    tuple [getBridgedInputType] and [getBridgedResultType] with
    [suppressOptional] set have the same outcome and the same diagnostics. *)
Theorem argument_like_non_optional_result rep pattern :
  (forall t,
     getLoweredBridgedType TC pattern t rep ForArgument
     = getLoweredBridgedType TC pattern t rep ForNonOptionalResult)
  /\ (forall input diags,
        (forall elts, input <> TupleTy elts) ->
        getBridgedInputType TC rep pattern input diags
        = getBridgedResultType TC rep pattern input true diags).
Proof.
  assert (Hcore : forall t,
            getLoweredBridgedType TC pattern t rep ForArgument
            = getLoweredBridgedType TC pattern t rep ForNonOptionalResult).
  { intros t. destruct rep; reflexivity. }
  split; [exact Hcore|].
  intros input diags Hnt.
  rewrite (getBridgedInputType_run TC) by assumption.
  rewrite (getBridgedResultType_run TC). rewrite Hcore. reflexivity.
Qed.

(** Without a Clang type the hint has no effect on the leaf mapper. *)
Lemma leaf_hint_without_clang t (hint1 hint2 : bool) :
  getLoweredCBridgedType TC t (@None ClangType) hint1
  = getLoweredCBridgedType TC t None hint2.
Proof.
  unfold getLoweredCBridgedType. simpl nonNull. rewrite !andb_false_r.
  reflexivity.
Qed.

(** X3: the purpose matters only for a type that is not an optional,
    under a foreign representation, with a Clang type in the pattern: under
    a native representation, or for an optional type, or with no Clang type,
    the core mapper gives the same answer for every purpose. *)
Theorem purpose_matters_only_with_clang_type pattern t rep purpose1 purpose2 :
  In rep nativeRepresentations
  \/ getAnyOptionalObjectType t <> None
  \/ isClangType pattern = false ->
  getLoweredBridgedType TC pattern t rep purpose1
  = getLoweredBridgedType TC pattern t rep purpose2.
Proof.
  intros H.
  destruct (in_dec SILFunctionTypeRepresentation_eq_dec rep
                   nativeRepresentations) as [Hnat|Hnat].
  { rewrite !(getLoweredBridgedType_native TC) by assumption. reflexivity. }
  assert (Hrep : In rep foreignRepresentations).
  { destruct rep; simpl in *; tauto. }
  rewrite !(getLoweredBridgedType_foreign TC) by assumption.
  destruct H as [H | [H | H]]; [contradiction | |].
  - destruct (getAnyOptionalObjectType t) as [[k v]|]; [reflexivity|congruence].
  - destruct (getAnyOptionalObjectType t) as [[k v]|]; [reflexivity|].
    unfold clangTyOf. rewrite H. apply leaf_hint_without_clang.
Qed.

(** The leaf mapper looks at the Clang type only to see whether there is
    one and whether it is a boolean type. *)
Lemma leaf_clang_flags t (c1 c2 : option ClangType) hint :
  nonNull c1 = nonNull c2 ->
  nonNullAndBoolean c1 = nonNullAndBoolean c2 ->
  getLoweredCBridgedType TC t c1 hint = getLoweredCBridgedType TC t c2 hint.
Proof.
  intros H1 H2. unfold getLoweredCBridgedType. rewrite H1, H2. reflexivity.
Qed.

(** X4: of the pattern only two bits are used: whether it has a Clang
    type and whether that type is a boolean type.  Two patterns that agree
    on both are bridged alike by the core mapper. *)
Theorem pattern_used_only_as_two_flags pattern1 pattern2 t rep purpose :
  isClangType pattern1 = isClangType pattern2 ->
  (isClangType pattern1 = true ->
   isBooleanType (getClangType pattern1)
   = isBooleanType (getClangType pattern2)) ->
  getLoweredBridgedType TC pattern1 t rep purpose
  = getLoweredBridgedType TC pattern2 t rep purpose.
Proof.
  intros Hc Hb.
  assert (Hleaf : forall x hint,
            getLoweredCBridgedType TC x (clangTyOf pattern1) hint
            = getLoweredCBridgedType TC x (clangTyOf pattern2) hint).
  { intros x hint. apply leaf_clang_flags; unfold clangTyOf; rewrite <- Hc;
      destruct (isClangType pattern1); simpl; auto. }
  unfold getLoweredBridgedType.
  destruct rep; try reflexivity;
    (destruct (getAnyOptionalObjectType t) as [[k v]|];
     [rewrite Hleaf; reflexivity | apply Hleaf]).
Qed.

(** ** The remaining rules of the leaf mapper *)

Lemma anyNominalIs_no_nominal t d :
  getAnyNominal t = None -> anyNominalIs t d = false.
Proof. unfold anyNominalIs. intros ->. reflexivity. Qed.

(** Rule 3: metatypes. *)
Lemma leaf_metatype inst r clangTy hint :
  getStringType TC <> Some (MetatypeTy inst r) ->
  getBoolType TC <> Some (MetatypeTy inst r) ->
  getLoweredCBridgedType TC (MetatypeTy inst r) clangTy hint
  = if nonNull (getClassOrBoundGenericClass inst)
    then Value (Some (MetatypeTy inst (Some MetatypeObjC)))
    else Value (Some (MetatypeTy inst r)).
Proof.
  intros Hs Hb. unfold getLoweredCBridgedType.
  apply nonNullAndEqual_false_iff in Hs, Hb. rewrite Hs, Hb.
  destruct (nonNull (getClassOrBoundGenericClass inst)); [reflexivity|].
  cbn [orElse]. rewrite !collection_block.
  rewrite !anyNominalIsKnown_no_nominal by reflexivity. reflexivity.
Qed.

(** Rule 4: existential metatypes. *)
Lemma leaf_existential_metatype inst r clangTy hint :
  getStringType TC <> Some (ExistentialMetatypeTy inst r) ->
  getBoolType TC <> Some (ExistentialMetatypeTy inst r) ->
  getLoweredCBridgedType TC (ExistentialMetatypeTy inst r) clangTy hint
  = if isObjCExistentialType inst
    then Value (Some (ExistentialMetatypeTy inst (Some MetatypeObjC)))
    else Value (Some (ExistentialMetatypeTy inst r)).
Proof.
  intros Hs Hb. unfold getLoweredCBridgedType.
  apply nonNullAndEqual_false_iff in Hs, Hb. rewrite Hs, Hb.
  destruct (isObjCExistentialType inst); [reflexivity|].
  cbn [orElse]. rewrite !collection_block.
  rewrite !anyNominalIsKnown_no_nominal by reflexivity. reflexivity.
Qed.

(** X5: under a foreign representation the metatype of a class comes back
    as the metatype of the same instance type in the ObjC representation,
    whatever its representation was; the metatype of anything else comes
    back as it is.  Pattern and purpose play no part. *)
Theorem class_metatype_rule pattern inst r rep purpose :
  In rep foreignRepresentations ->
  getStringType TC <> Some (MetatypeTy inst r) ->
  getBoolType TC <> Some (MetatypeTy inst r) ->
  (getClassOrBoundGenericClass inst <> None ->
   getLoweredBridgedType TC pattern (MetatypeTy inst r) rep purpose
   = Value (Some (MetatypeTy inst (Some MetatypeObjC))))
  /\ (getClassOrBoundGenericClass inst = None ->
      getLoweredBridgedType TC pattern (MetatypeTy inst r) rep purpose
      = Value (Some (MetatypeTy inst r))).
Proof.
  intros Hrep Hs Hb.
  rewrite (getLoweredBridgedType_foreign TC) by assumption. simpl.
  rewrite leaf_metatype by assumption.
  split; intros H.
  - destruct (getClassOrBoundGenericClass inst); [reflexivity|congruence].
  - rewrite H. reflexivity.
Qed.

(** X6: under a foreign representation the existential metatype of an
    ObjC existential comes back in the ObjC representation with the same
    instance type; the existential metatype of anything else comes back as
    it is. *)
Theorem existential_metatype_rule pattern inst r rep purpose :
  In rep foreignRepresentations ->
  getStringType TC <> Some (ExistentialMetatypeTy inst r) ->
  getBoolType TC <> Some (ExistentialMetatypeTy inst r) ->
  (isObjCExistentialType inst = true ->
   getLoweredBridgedType TC pattern (ExistentialMetatypeTy inst r) rep purpose
   = Value (Some (ExistentialMetatypeTy inst (Some MetatypeObjC))))
  /\ (isObjCExistentialType inst = false ->
      getLoweredBridgedType TC pattern (ExistentialMetatypeTy inst r) rep
                            purpose
      = Value (Some (ExistentialMetatypeTy inst r))).
Proof.
  intros Hrep Hs Hb.
  rewrite (getLoweredBridgedType_foreign TC) by assumption. simpl.
  rewrite leaf_existential_metatype by assumption.
  split; intros ->; reflexivity.
Qed.

Lemma anyNominalIsKnown_nominal d args decl :
  anyNominalIsKnown (NominalTy d args) decl = true <-> decl = Some d.
Proof.
  destruct decl as [d'|]; simpl; [|split; discriminate].
  unfold anyNominalIs. simpl.
  destruct (NominalTypeDecl_eq_dec d d'); split; congruence.
Qed.

Lemma anyNominalIsKnown_nominal_false d args decl :
  anyNominalIsKnown (NominalTy d args) decl = false <-> decl <> Some d.
Proof.
  rewrite <- anyNominalIsKnown_nominal with (args := args).
  destruct (anyNominalIsKnown (NominalTy d args) decl); split; congruence.
Qed.

(** Rules 6 to 9 on a nominal type. *)
Lemma leaf_nominal d args (clangTy : option ClangType) hint :
  getStringType TC <> Some (NominalTy d args) ->
  getBoolType TC <> Some (NominalTy d args) ->
  getLoweredCBridgedType TC (NominalTy d args) clangTy hint
  = let wrap (x : option Ty) :=
      if hint && nonNull clangTy then OptionalType_get x else Value x in
    if anyNominalIsKnown (NominalTy d args) (getArrayDecl (Context TC))
    then wrap (getNSArrayType TC)
    else if anyNominalIsKnown (NominalTy d args)
              (getDictionaryDecl (Context TC))
    then wrap (getNSDictionaryType TC)
    else if anyNominalIsKnown (NominalTy d args) (getSetDecl (Context TC))
    then wrap (getNSSetType TC)
    else Value (Some (NominalTy d args)).
Proof.
  intros Hs Hb. unfold getLoweredCBridgedType.
  apply nonNullAndEqual_false_iff in Hs, Hb. rewrite Hs, Hb.
  cbn [orElse]. rewrite !collection_block.
  destruct (anyNominalIsKnown _ (getArrayDecl (Context TC))); [reflexivity|].
  destruct (anyNominalIsKnown _ (getDictionaryDecl (Context TC)));
    [reflexivity|].
  destruct (anyNominalIsKnown _ (getSetDecl (Context TC))); reflexivity.
Qed.

(** X7: a nominal type that is not an optional, and is other than the
    native string and boolean types, is bridged by its declaration alone,
    the generic arguments playing no part: the array declaration gives the
    lookup of the foreign array type, else the dictionary declaration that
    of the foreign dictionary type, else the set declaration that of the
    foreign set type, each handed to [OptionalType::get] exactly for purpose
    result with a Clang type in the pattern; any other declaration leaves
    the type as it is. *)
Theorem nominal_type_rules pattern d args rep purpose :
  In rep foreignRepresentations ->
  notOptionalDecl d = true ->
  getStringType TC <> Some (NominalTy d args) ->
  getBoolType TC <> Some (NominalTy d args) ->
  let bridged :=
    getLoweredBridgedType TC pattern (NominalTy d args) rep purpose in
  (getArrayDecl (Context TC) = Some d ->
   bridged = wrappedFor pattern purpose (getNSArrayType TC))
  /\ (getArrayDecl (Context TC) <> Some d ->
      getDictionaryDecl (Context TC) = Some d ->
      bridged = wrappedFor pattern purpose (getNSDictionaryType TC))
  /\ (getArrayDecl (Context TC) <> Some d ->
      getDictionaryDecl (Context TC) <> Some d ->
      getSetDecl (Context TC) = Some d ->
      bridged = wrappedFor pattern purpose (getNSSetType TC))
  /\ (getArrayDecl (Context TC) <> Some d ->
      getDictionaryDecl (Context TC) <> Some d ->
      getSetDecl (Context TC) <> Some d ->
      bridged = Value (Some (NominalTy d args))).
Proof.
  intros Hrep Hno Hs Hb bridged. subst bridged.
  rewrite (getLoweredBridgedType_foreign TC) by assumption.
  rewrite (getAnyOptionalObjectType_nominal d args Hno).
  rewrite leaf_nominal by assumption. cbv beta zeta.
  assert (Hwrap : forall x,
            (if isForResult purpose && nonNull (clangTyOf pattern)
             then OptionalType_get x else Value x)
            = wrappedFor pattern purpose x).
  { intros x. unfold wrappedFor, clangTyOf.
    destruct (isClangType pattern); reflexivity. }
  rewrite !Hwrap.
  repeat split.
  - intros Ha. apply (anyNominalIsKnown_nominal d args) in Ha.
    rewrite Ha. reflexivity.
  - intros Ha Hd. apply (anyNominalIsKnown_nominal_false d args) in Ha.
    apply (anyNominalIsKnown_nominal d args) in Hd.
    rewrite Ha, Hd. reflexivity.
  - intros Ha Hd Hset. apply (anyNominalIsKnown_nominal_false d args) in Ha, Hd.
    apply (anyNominalIsKnown_nominal d args) in Hset.
    rewrite Ha, Hd, Hset. reflexivity.
  - intros Ha Hd Hset.
    apply (anyNominalIsKnown_nominal_false d args) in Ha, Hd, Hset.
    rewrite Ha, Hd, Hset. reflexivity.
Qed.

(** ** When there is no mapping *)

Lemma wrapped_no_type (b : bool) (x : option Ty) :
  (forall r, (if b then OptionalType_get x else Value x) <> Value (Some r)) ->
  x = None.
Proof.
  intros H. destruct x as [y|]; [|reflexivity]. exfalso.
  destruct b; simpl in H; eapply H; reflexivity.
Qed.

(** The leaf mapper hands back no type only when the rule that fired
    looked up a foreign counterpart that is not available. *)
Lemma leaf_no_type_cases t (clangTy : option ClangType) hint :
  (forall r, getLoweredCBridgedType TC t clangTy hint <> Value (Some r)) ->
  (getStringType TC = Some t /\ getNSStringType TC = None)
  \/ (getBoolType TC = Some t /\ getObjCBoolType TC = None)
  \/ (anyNominalIsKnown t (getArrayDecl (Context TC)) = true
      /\ getNSArrayType TC = None)
  \/ (anyNominalIsKnown t (getDictionaryDecl (Context TC)) = true
      /\ getNSDictionaryType TC = None)
  \/ (anyNominalIsKnown t (getSetDecl (Context TC)) = true
      /\ getNSSetType TC = None).
Proof.
  unfold getLoweredCBridgedType. intros H.
  destruct (nonNullAndEqual (getStringType TC) t) eqn:Hs.
  { left. apply nonNullAndEqual_true_iff in Hs. cbn [orElse] in H.
    apply wrapped_no_type in H. auto. }
  right.
  destruct (nonNullAndEqual (getBoolType TC) t) eqn:Hb.
  { left. apply nonNullAndEqual_true_iff in Hb.
    destruct (nonNullAndBoolean clangTy); cbn [orElse] in H.
    - exfalso. eapply H. reflexivity.
    - split; [assumption|].
      destruct (getObjCBoolType TC) as [y|]; [|reflexivity].
      exfalso. eapply H. reflexivity. }
  right. cbn [orElse] in H. rewrite !collection_block in H.
  assert (Htail :
    forall rest : Flow (Evaluated (option Ty)),
      (forall r,
         (rest ;;;
          (if anyNominalIsKnown t (getArrayDecl (Context TC))
           then Return (if hint && nonNull clangTy
                        then OptionalType_get (getNSArrayType TC)
                        else Value (getNSArrayType TC))
           else FallThrough) ;;;
          (if anyNominalIsKnown t (getDictionaryDecl (Context TC))
           then Return (if hint && nonNull clangTy
                        then OptionalType_get (getNSDictionaryType TC)
                        else Value (getNSDictionaryType TC))
           else FallThrough) ;;;
          (if anyNominalIsKnown t (getSetDecl (Context TC))
           then Return (if hint && nonNull clangTy
                        then OptionalType_get (getNSSetType TC)
                        else Value (getNSSetType TC))
           else FallThrough) ;;;
          Value (Some t)) <> Value (Some r)) ->
      rest = FallThrough ->
      (anyNominalIsKnown t (getArrayDecl (Context TC)) = true
       /\ getNSArrayType TC = None)
      \/ (anyNominalIsKnown t (getDictionaryDecl (Context TC)) = true
          /\ getNSDictionaryType TC = None)
      \/ (anyNominalIsKnown t (getSetDecl (Context TC)) = true
          /\ getNSSetType TC = None)).
  { intros rest Hrest ->. cbn [orElse] in Hrest.
    destruct (anyNominalIsKnown t (getArrayDecl (Context TC))).
    { left. cbn [orElse] in Hrest. apply wrapped_no_type in Hrest. auto. }
    right.
    destruct (anyNominalIsKnown t (getDictionaryDecl (Context TC))).
    { left. cbn [orElse] in Hrest. apply wrapped_no_type in Hrest. auto. }
    right.
    destruct (anyNominalIsKnown t (getSetDecl (Context TC))).
    { cbn [orElse] in Hrest. apply wrapped_no_type in Hrest. auto. }
    cbn [orElse] in Hrest. exfalso. eapply Hrest. reflexivity. }
  destruct t as [d args|elts|inst rp|inst rp|input result info|ps|name];
    try (apply (Htail _ H); reflexivity).
  - destruct (nonNull (getClassOrBoundGenericClass inst));
      [ cbn [orElse] in H; exfalso; eapply H; reflexivity
      | apply (Htail _ H); reflexivity ].
  - destruct (isObjCExistentialType inst);
      [ cbn [orElse] in H; exfalso; eapply H; reflexivity
      | apply (Htail _ H); reflexivity ].
  - cbn [orElse] in H.
    destruct (getSILRepresentation info); cbn [orElse] in H;
      exfalso; eapply H; reflexivity.
Qed.

(** X8: the core mapper has no mapping only under a foreign
    representation and only because a foreign counterpart is missing: the
    type handed to the leaf mapper ([t], or what [t] wraps when it is an
    optional) is then the native string type with the foreign string type
    unavailable, or the native boolean type with the foreign boolean type
    unavailable, or of a collection declaration whose foreign type is
    unavailable. *)
Theorem no_mapping_means_missing_counterpart pattern t rep purpose :
  getLoweredBridgedType TC pattern t rep purpose = Value None ->
  In rep foreignRepresentations
  /\ exists x,
       (x = t \/ exists k, t = OptionalTy k x)
       /\ ((getStringType TC = Some x /\ getNSStringType TC = None)
           \/ (getBoolType TC = Some x /\ getObjCBoolType TC = None)
           \/ (anyNominalIsKnown x (getArrayDecl (Context TC)) = true
               /\ getNSArrayType TC = None)
           \/ (anyNominalIsKnown x (getDictionaryDecl (Context TC)) = true
               /\ getNSDictionaryType TC = None)
           \/ (anyNominalIsKnown x (getSetDecl (Context TC)) = true
               /\ getNSSetType TC = None)).
Proof.
  intros H.
  destruct (in_dec SILFunctionTypeRepresentation_eq_dec rep
                   nativeRepresentations) as [Hnat|Hnat].
  { rewrite (getLoweredBridgedType_native TC) in H by assumption.
    discriminate. }
  assert (Hrep : In rep foreignRepresentations).
  { destruct rep; simpl in *; tauto. }
  split; [assumption|].
  rewrite (getLoweredBridgedType_foreign TC) in H by assumption.
  destruct (getAnyOptionalObjectType t) as [[k v]|] eqn:Hopt.
  - apply getAnyOptionalObjectType_inv in Hopt. subst t.
    destruct (getLoweredCBridgedType TC v (clangTyOf pattern) false)
      as [[b|]|] eqn:Hv; try discriminate.
    exists v. split; [right; eauto|].
    apply (leaf_no_type_cases v (clangTyOf pattern) false).
    intros r. rewrite Hv. discriminate.
  - exists t. split; [left; reflexivity|].
    apply (leaf_no_type_cases t (clangTyOf pattern) (isForResult purpose)).
    intros r. rewrite H. discriminate.
Qed.

(** With every foreign counterpart available the core mapper always maps
    to a type. *)
Lemma complete_registry_maps pattern t rep purpose :
  foreignCounterpartsAvailable TC = true ->
  exists r, getLoweredBridgedType TC pattern t rep purpose = Value (Some r).
Proof.
  unfold foreignCounterpartsAvailable. rewrite !andb_true_iff.
  intros ((((Hns & Hob) & Hna) & Hnd) & Hnset).
  assert (Hleaf : forall x c h,
            exists r, getLoweredCBridgedType TC x c h = Value (Some r)).
  { intros x c h.
    destruct (getLoweredCBridgedType TC x c h) as [[r|]|] eqn:Hx; [eauto| |];
      exfalso;
      (assert (Hno : forall r,
                 getLoweredCBridgedType TC x c h <> Value (Some r))
         by (intros r; rewrite Hx; discriminate));
      apply leaf_no_type_cases in Hno;
      destruct Hno as [[_ E] | [[_ E] | [[_ E] | [[_ E] | [_ E]]]]];
      rewrite E in *; discriminate. }
  unfold getLoweredBridgedType.
  destruct rep; eauto;
    (destruct (getAnyOptionalObjectType t) as [[k v]|];
     [ destruct (Hleaf v (clangTyOf pattern) false) as [r ->]; eauto
     | apply Hleaf ]).
Qed.

(** X9: when every foreign counterpart is available neither entry point
    fails: for every representation, pattern and type, tuple or not, a type
    is returned and no diagnostic is emitted, whether or not the native
    types are available. *)
Theorem complete_registry_never_fails rep pattern diags :
  foreignCounterpartsAvailable TC = true ->
  (forall input,
     exists r, returns (getBridgedInputType TC rep pattern input) diags r)
  /\ (forall result suppressOptional,
        exists r,
          returns (getBridgedResultType TC rep pattern result suppressOptional)
                  diags r).
Proof.
  intros Hall. split.
  - intros input. destruct (is_tuple_dec input) as [[elts ->] | Hnt].
    + destruct (getBridgedInputType_tuple TC rep pattern elts diags)
        as (elts' & Hret & _).
      { intros j elt _.
        destruct (complete_registry_maps (getTupleElementType pattern j)
                    (eltType elt) rep ForArgument Hall) as [r ->].
        discriminate. }
      eauto.
    + destruct (complete_registry_maps pattern input rep ForArgument Hall)
        as [r Hr].
      exists r. apply (returns_input_inv TC rep pattern input diags r Hnt).
      assumption.
  - intros result sup.
    destruct (complete_registry_maps pattern result rep
                (if sup then ForNonOptionalResult else ForResult) Hall)
      as [r Hr].
    exists r. apply returns_result_inv. assumption.
Qed.

(** ** Structure that bridging keeps *)

(** A tuple handed to the core mapper comes back as it is. *)
Lemma getLoweredBridgedType_tuple pattern elts rep purpose :
  wellFormedKnownTypes TC = true ->
  getLoweredBridgedType TC pattern (TupleTy elts) rep purpose
  = Value (Some (TupleTy elts)).
Proof.
  intros Hwf.
  destruct (in_dec SILFunctionTypeRepresentation_eq_dec rep
                   nativeRepresentations) as [Hnat|Hnat].
  { apply getLoweredBridgedType_native. assumption. }
  assert (Hrep : In rep foreignRepresentations).
  { destruct rep; simpl in *; tauto. }
  rewrite (getLoweredBridgedType_foreign TC) by assumption. simpl.
  apply leaf_tuple. assumption.
Qed.

(** X10: only the top level of an input tuple is taken apart.  In a
    well-formed registry an element that is itself a tuple is kept as it
    is, whatever it contains: an input tuple all of whose elements are
    tuples is returned unchanged, with no diagnostic, under every
    representation and whatever lookups are unavailable. *)
Theorem nested_tuples_are_kept rep pattern (elts : list TupleTypeElt) diags :
  wellFormedKnownTypes TC = true ->
  (forall elt, In elt elts -> exists inner, eltType elt = TupleTy inner) ->
  returns (getBridgedInputType TC rep pattern (TupleTy elts)) diags
          (TupleTy elts).
Proof.
  intros Hwf Hnested.
  assert (Hid : forall j elt, nth_error elts j = Some elt ->
            getLoweredBridgedType TC (getTupleElementType pattern j)
                                  (eltType elt) rep ForArgument
            = Value (Some (eltType elt))).
  { intros j elt Hj. destruct (Hnested elt (nth_error_In _ _ Hj)) as [inner ->].
    apply getLoweredBridgedType_tuple. assumption. }
  destruct (getBridgedInputType_tuple TC rep pattern elts diags)
    as (elts' & Hret & Hlen & Hnth).
  { intros j elt Hj. rewrite (Hid j elt Hj). discriminate. }
  rewrite (fields_unchanged TC rep pattern elts elts' Hlen Hnth Hid) in Hret.
  exact Hret.
Qed.

Lemma optionalDepth_zero t :
  getAnyOptionalObjectType t = None <-> optionalDepth t = 0.
Proof.
  destruct t as [d args| | | | | |]; simpl; try (split; congruence).
  destruct args as [|a [|a' args]]; try (split; congruence).
  destruct (classifyAsOptionalType d); split; congruence.
Qed.

(** Under a false hint the leaf mapper keeps the number of optionals. *)
Lemma leaf_keeps_depth t clangTy r :
  wellFormedKnownTypes TC = true ->
  getLoweredCBridgedType TC t clangTy false = Value (Some r) ->
  optionalDepth r = optionalDepth t.
Proof.
  intros Hwf H. destruct (getAnyOptionalObjectType t) as [[k v]|] eqn:Hopt.
  - apply getAnyOptionalObjectType_inv in Hopt. subst t.
    rewrite (leaf_optional TC) in H by assumption. congruence.
  - destruct (leaf_idempotent TC _ _ _ Hwf H) as [_ Hno].
    specialize (Hno Hopt). apply optionalDepth_zero in Hno, Hopt. congruence.
Qed.

(** X11: in a well-formed registry bridging keeps the number of optionals
    stacked at the top of a type, with one exception: for purpose result,
    with a Clang type in the pattern, a type that is not an optional may
    come back inside exactly one optional, and that one is the plain
    optional, never the implicitly unwrapped one. *)
Theorem optional_depth_is_kept pattern t rep purpose r :
  wellFormedKnownTypes TC = true ->
  getLoweredBridgedType TC pattern t rep purpose = Value (Some r) ->
  optionalDepth r = optionalDepth t
  \/ (purpose = ForResult
      /\ isClangType pattern = true
      /\ optionalDepth t = 0
      /\ optionalDepth r = 1
      /\ exists y, r = OptionalTy OTK_Optional y).
Proof.
  intros Hwf H.
  destruct (in_dec SILFunctionTypeRepresentation_eq_dec rep
                   nativeRepresentations) as [Hnat|Hnat].
  { rewrite (getLoweredBridgedType_native TC) in H by assumption.
    left. congruence. }
  assert (Hrep : In rep foreignRepresentations).
  { destruct rep; simpl in *; tauto. }
  rewrite (getLoweredBridgedType_foreign TC) in H by assumption.
  destruct (getAnyOptionalObjectType t) as [[k v]|] eqn:Hopt.
  - apply getAnyOptionalObjectType_inv in Hopt. subst t.
    destruct (getLoweredCBridgedType TC v (clangTyOf pattern) false)
      as [[b|]|] eqn:Hb; try discriminate.
    injection H as <-. left. rewrite !optionalDepth_OptionalTy.
    rewrite (leaf_keeps_depth _ _ _ Hwf Hb). reflexivity.
  - destruct purpose; simpl in H;
      try (left; eapply leaf_keeps_depth; eassumption).
    destruct (leaf_hint_cases TC _ _ _ H) as [E | (Hc & y & -> & Hy)].
    + left. eapply leaf_keeps_depth; eassumption.
    + right. split; [reflexivity|]. split.
      { unfold clangTyOf in Hc.
        destruct (isClangType pattern); [reflexivity | discriminate]. }
      apply optionalDepth_zero in Hopt. split; [assumption|].
      split; [|eauto].
      rewrite optionalDepth_OptionalTy.
      rewrite (leaf_keeps_depth _ _ _ Hwf Hy). congruence.
Qed.

(** What the leaf mapper gives under a false hint is no thick function
    type and no class or ObjC existential metatype outside the ObjC
    representation. *)
Lemma leaf_result_is_foreign t clangTy r :
  wellFormedKnownTypes TC = true ->
  getLoweredCBridgedType TC t clangTy false = Value (Some r) ->
  isThickFunction r = false
  /\ isNativeClassMetatype r = false
  /\ isNativeObjCExistentialMetatype r = false.
Proof.
  intros Hwf H.
  destruct (leaf_idempotent TC _ _ _ Hwf H) as [Hfix _].
  specialize (Hfix false).
  destruct r as [d args|elts|inst rp|inst rp|input result info|ps|name];
    try (repeat split; reflexivity).
  - destruct (not_nominal_not_native TC (MetatypeTy inst rp) Hwf eq_refl)
      as [Hs Hb].
    apply nonNullAndEqual_false_iff in Hs, Hb.
    rewrite leaf_metatype in Hfix by assumption.
    repeat split; try reflexivity. simpl.
    destruct (nonNull (getClassOrBoundGenericClass inst)); [|reflexivity].
    injection Hfix as <-. reflexivity.
  - destruct (not_nominal_not_native TC (ExistentialMetatypeTy inst rp) Hwf
                eq_refl) as [Hs Hb].
    apply nonNullAndEqual_false_iff in Hs, Hb.
    rewrite leaf_existential_metatype in Hfix by assumption.
    repeat split; try reflexivity. simpl.
    destruct (isObjCExistentialType inst); [|reflexivity].
    injection Hfix as <-. reflexivity.
  - destruct (not_nominal_not_native TC (FunctionTy input result info) Hwf
                eq_refl) as [Hs Hb].
    apply nonNullAndEqual_false_iff in Hs, Hb.
    rewrite (leaf_function TC) in Hfix by assumption.
    repeat split; try reflexivity. simpl.
    destruct info as [rp nr ac ne th]. simpl in *.
    destruct rp; try reflexivity. discriminate.
Qed.

(** X12: in a well-formed registry, what comes out of the core mapper
    under a foreign representation is never a thick function type, nor the
    metatype of a class or the existential metatype of an ObjC existential
    in another representation than ObjC; nor is what it wraps, when it is
    an optional. *)
Theorem nothing_native_is_left pattern t rep purpose r :
  wellFormedKnownTypes TC = true ->
  In rep foreignRepresentations ->
  getLoweredBridgedType TC pattern t rep purpose = Value (Some r) ->
  let foreign x :=
    isThickFunction x = false
    /\ isNativeClassMetatype x = false
    /\ isNativeObjCExistentialMetatype x = false in
  foreign r /\ (forall k v, r = OptionalTy k v -> foreign v).
Proof.
  intros Hwf Hrep H foreign. subst foreign. cbv beta.
  rewrite (getLoweredBridgedType_foreign TC) in H by assumption.
  destruct (getAnyOptionalObjectType t) as [[k v]|] eqn:Hopt.
  - destruct (getLoweredCBridgedType TC v (clangTyOf pattern) false)
      as [[b|]|] eqn:Hb; try discriminate.
    injection H as <-. split; [repeat split; reflexivity|].
    intros k' v' E. apply OptionalTy_inj in E. destruct E as [_ <-].
    eapply leaf_result_is_foreign; eassumption.
  - assert (Hcases :
      getLoweredCBridgedType TC t (clangTyOf pattern) false = Value (Some r)
      \/ exists y, r = OptionalTy OTK_Optional y
           /\ getLoweredCBridgedType TC t (clangTyOf pattern) false
              = Value (Some y)).
    { destruct (isForResult purpose); [|auto].
      destruct (leaf_hint_cases TC _ _ _ H) as [E | (_ & y & E1 & E2)]; eauto. }
    destruct Hcases as [Hr | (y & -> & Hy)].
    + split; [eapply leaf_result_is_foreign; eassumption|].
      intros k v ->.
      destruct (leaf_idempotent TC _ _ _ Hwf Hr) as [_ Hno].
      specialize (Hno Hopt).
      rewrite getAnyOptionalObjectType_OptionalTy in Hno. discriminate.
    + split; [repeat split; reflexivity|].
      intros k' v' E. apply OptionalTy_inj in E. destruct E as [_ <-].
      eapply leaf_result_is_foreign; eassumption.
Qed.

(** X13: an input tuple is bridged element by element: an element that is
    not itself a tuple gets, in the returned tuple, the type that
    [getBridgedInputType] returns for the element's type alone under the
    element's slice of the pattern, and is otherwise the input element. *)
Theorem tuple_is_bridged_elementwise rep pattern elts elts' diags j elt :
  returns (getBridgedInputType TC rep pattern (TupleTy elts)) diags
          (TupleTy elts') ->
  nth_error elts j = Some elt ->
  (forall inner, eltType elt <> TupleTy inner) ->
  exists b,
    returns (getBridgedInputType TC rep (getTupleElementType pattern j)
                                 (eltType elt)) diags b
    /\ nth_error elts' j = Some (getWithType elt b).
Proof.
  intros Hret Hj Hnt.
  assert (Hall : forall j elt, nth_error elts j = Some elt ->
            getLoweredBridgedType TC (getTupleElementType pattern j)
                                  (eltType elt) rep ForArgument
            <> Value None).
  { unfold returns, getBridgedInputType, bind in Hret.
    destruct (bridgeTupleElements TC rep pattern elts 0 [] false diags)
      as [[res|msg|] diags'] eqn:Hrun; try discriminate.
    intros j0 elt0 Hj0.
    exact (bridgeTupleElements_inv TC rep pattern elts 0 [] false diags
             res diags' Hrun j0 elt0 Hj0). }
  destruct (getBridgedInputType_tuple TC rep pattern elts diags Hall)
    as (elts'' & Hret' & _ & Hnth).
  assert (elts'' = elts') as ->.
  { unfold returns in Hret, Hret'. rewrite Hret in Hret'. congruence. }
  destruct (Hnth j elt Hj) as (b & Hb & Hf).
  exists b. split; [|assumption].
  apply (returns_input_inv TC rep (getTupleElementType pattern j)
           (eltType elt) diags b Hnt).
  assumption.
Qed.

(** ** Diagnostics *)

(** The loop appends to the diagnostics at most one entry, the same
    whatever was there, and its outcome does not depend on them. *)
Lemma bridgeTupleElements_frame rep pattern :
  forall elts i bridgedFields changed,
    exists outcome emitted,
      List.length emitted <= 1
      /\ forall diags,
           bridgeTupleElements TC rep pattern elts i bridgedFields changed diags
           = (outcome, (diags ++ emitted)%list).
Proof.
  induction elts as [|elt rest IH]; intros i acc ch.
  - exists (Returned (acc, ch)), []. split; [simpl; lia|].
    intros diags. simpl. rewrite app_nil_r. reflexivity.
  - destruct (getLoweredBridgedType TC (getTupleElementType pattern i)
                (eltType elt) rep ForArgument) as [[b|]|] eqn:Hb.
    + destruct (negb (isEqual b (eltType elt))) eqn:Hne.
      * destruct (IH (S i) (acc ++ [getWithType elt b])%list true)
          as (outcome & emitted & Hlen & Hrun).
        exists outcome, emitted. split; [assumption|]. intros diags.
        rewrite (bridgeTupleElements_cons TC), Hb, Hne. apply Hrun.
      * destruct (IH (S i) (acc ++ [elt])%list ch)
          as (outcome & emitted & Hlen & Hrun).
        exists outcome, emitted. split; [assumption|]. intros diags.
        rewrite (bridgeTupleElements_cons TC), Hb, Hne. apply Hrun.
    + exists (FatalError "unable to set up the ObjC bridge!"),
             [could_not_find_bridge_type (eltType elt)].
      split; [simpl; lia|]. intros diags.
      rewrite (bridgeTupleElements_cons TC), Hb. reflexivity.
    + exists Crashed, []. split; [simpl; lia|]. intros diags.
      rewrite (bridgeTupleElements_cons TC), Hb, app_nil_r. reflexivity.
Qed.

(** X14: the entry points only ever append to the diagnostics: whatever
    was emitted before stays, in order; at most one diagnostic is added;
    and neither the outcome nor what is added depends on what was emitted
    before. *)
Theorem diagnostics_are_only_appended rep pattern :
  (forall input,
     exists outcome emitted,
       List.length emitted <= 1
       /\ forall diags,
            getBridgedInputType TC rep pattern input diags
            = (outcome, (diags ++ emitted)%list))
  /\ (forall result suppressOptional,
        exists outcome emitted,
          List.length emitted <= 1
          /\ forall diags,
               getBridgedResultType TC rep pattern result suppressOptional
                                    diags
               = (outcome, (diags ++ emitted)%list)).
Proof.
  assert (Hone : forall (t : Ty) (m : Evaluated (option Ty)),
            exists (outcome : Outcome Ty) emitted,
              List.length emitted <= 1
              /\ forall diags,
                   match m with
                   | Value (Some ty) => (Returned ty, diags)
                   | Value None =>
                       (FatalError "unable to set up the ObjC bridge!",
                        (diags ++ [could_not_find_bridge_type t])%list)
                   | NullDereference => (Crashed, diags)
                   end = (outcome, (diags ++ emitted)%list)).
  { intros t [[ty|]|].
    - exists (Returned ty), []. split; [simpl; lia|]. intros diags.
      rewrite app_nil_r. reflexivity.
    - exists (FatalError "unable to set up the ObjC bridge!"),
             [could_not_find_bridge_type t].
      split; [simpl; lia|]. reflexivity.
    - exists Crashed, []. split; [simpl; lia|]. intros diags.
      rewrite app_nil_r. reflexivity. }
  split.
  - intros input. destruct (is_tuple_dec input) as [[elts ->] | Hnt].
    + destruct (bridgeTupleElements_frame rep pattern elts 0 [] false)
        as (outcome & emitted & Hlen & Hrun).
      destruct outcome as [[fields ch]|msg|].
      * exists (Returned (if negb ch then TupleTy elts
                          else TupleType_get fields)), emitted.
        split; [assumption|]. intros diags.
        unfold getBridgedInputType, bind. rewrite Hrun.
        destruct (negb ch); reflexivity.
      * exists (FatalError msg), emitted. split; [assumption|].
        intros diags. unfold getBridgedInputType, bind. rewrite Hrun.
        reflexivity.
      * exists Crashed, emitted. split; [assumption|].
        intros diags. unfold getBridgedInputType, bind. rewrite Hrun.
        reflexivity.
    + destruct (Hone input
                  (getLoweredBridgedType TC pattern input rep ForArgument))
        as (outcome & emitted & Hlen & Hrun).
      exists outcome, emitted. split; [assumption|]. intros diags.
      rewrite (getBridgedInputType_run TC) by assumption. apply Hrun.
  - intros result sup.
    destruct (Hone result
                (getLoweredBridgedType TC pattern result rep
                   (if sup then ForNonOptionalResult else ForResult)))
      as (outcome & emitted & Hlen & Hrun).
    exists outcome, emitted. split; [assumption|]. intros diags.
    rewrite (getBridgedResultType_run TC). apply Hrun.
Qed.

End FurtherProperties.

(** ** Concrete runs of the further properties *)

Lemma foreign_representations_agree_witness :
  getBridgedInputType withFoundation CFunctionPointer objcMethodArgs
    (TupleTy [labeled "count" Int; labeled "name" String]) []
  = getBridgedInputType withFoundation Block objcMethodArgs
      (TupleTy [labeled "count" Int; labeled "name" String]) [].
Proof.
  destruct (foreign_representations_agree withFoundation CFunctionPointer Block)
    as (_ & Hinput & _).
  - simpl. auto.
  - simpl. auto.
  - apply Hinput.
Defined.

Lemma purpose_matters_only_with_clang_type_witness :
  getLoweredBridgedType withFoundation Opaque (ArrayOf Int) ObjCMethod
                        ForArgument
  = getLoweredBridgedType withFoundation Opaque (ArrayOf Int) ObjCMethod
                          ForResult.
Proof.
  apply (purpose_matters_only_with_clang_type withFoundation Opaque
           (ArrayOf Int) ObjCMethod ForArgument ForResult).
  right. right. reflexivity.
Defined.

Lemma pattern_used_only_as_two_flags_witness :
  getLoweredBridgedType withFoundation (FromClang ClangSignedChar) Bool
                        ObjCMethod ForResult
  = getLoweredBridgedType withFoundation nsStringPtr Bool ObjCMethod ForResult.
Proof.
  apply (pattern_used_only_as_two_flags withFoundation
           (FromClang ClangSignedChar) nsStringPtr Bool ObjCMethod ForResult).
  - reflexivity.
  - intros _. reflexivity.
Defined.

Lemma class_metatype_rule_witness :
  getLoweredBridgedType withFoundation Opaque
    (MetatypeTy NSString (Some MetatypeThick)) ObjCMethod ForArgument
  = Value (Some (MetatypeTy NSString (Some MetatypeObjC)))
  /\ getLoweredBridgedType withFoundation Opaque (MetatypeTy Int None)
                           ObjCMethod ForArgument
     = Value (Some (MetatypeTy Int None)).
Proof.
  split.
  - apply (class_metatype_rule withFoundation Opaque NSString
             (Some MetatypeThick) ObjCMethod ForArgument).
    + simpl. auto.
    + discriminate.
    + discriminate.
    + discriminate.
  - apply (class_metatype_rule withFoundation Opaque Int None
             ObjCMethod ForArgument).
    + simpl. auto.
    + discriminate.
    + discriminate.
    + reflexivity.
Defined.

Lemma existential_metatype_rule_witness :
  getLoweredBridgedType withFoundation Opaque
    (ExistentialMetatypeTy
       (NominalTy (mkDecl "Foundation" "NSCopying" ProtocolDecl true) [])
       (Some MetatypeThick))
    Block ForArgument
  = Value (Some (ExistentialMetatypeTy
                   (NominalTy
                      (mkDecl "Foundation" "NSCopying" ProtocolDecl true) [])
                   (Some MetatypeObjC))).
Proof.
  apply (existential_metatype_rule withFoundation Opaque
           (NominalTy (mkDecl "Foundation" "NSCopying" ProtocolDecl true) [])
           (Some MetatypeThick) Block ForArgument).
  - simpl. auto.
  - discriminate.
  - discriminate.
  - reflexivity.
Defined.

Lemma nominal_type_rules_witness :
  getLoweredBridgedType withFoundation nsStringPtr
    (NominalTy DictionaryDecl [String; Int]) ObjCMethod ForResult
  = Value (Some (OptionalTy OTK_Optional NSDictionary))
  /\ getLoweredBridgedType withFoundation nsStringPtr Int ObjCMethod ForResult
     = Value (Some Int).
Proof.
  split.
  - destruct (nominal_type_rules withFoundation nsStringPtr DictionaryDecl
                [String; Int] ObjCMethod ForResult) as (_ & Hdict & _).
    + simpl. auto.
    + reflexivity.
    + discriminate.
    + discriminate.
    + rewrite Hdict; [reflexivity | discriminate | reflexivity].
  - destruct (nominal_type_rules withFoundation nsStringPtr
                (mkDecl "Swift" "Int" StructDecl false) [] ObjCMethod ForResult)
      as (_ & _ & _ & Hother).
    + simpl. auto.
    + reflexivity.
    + discriminate.
    + discriminate.
    + apply Hother; discriminate.
Defined.

Lemma no_mapping_means_missing_counterpart_witness :
  In ObjCMethod foreignRepresentations
  /\ exists x,
       (x = OptionalTy OTK_Optional (ArrayOf Int)
        \/ exists k, OptionalTy OTK_Optional (ArrayOf Int) = OptionalTy k x)
       /\ ((getStringType stdlibOnly = Some x
            /\ getNSStringType stdlibOnly = None)
           \/ (getBoolType stdlibOnly = Some x
               /\ getObjCBoolType stdlibOnly = None)
           \/ (anyNominalIsKnown x (getArrayDecl (Context stdlibOnly)) = true
               /\ getNSArrayType stdlibOnly = None)
           \/ (anyNominalIsKnown x (getDictionaryDecl (Context stdlibOnly))
               = true
               /\ getNSDictionaryType stdlibOnly = None)
           \/ (anyNominalIsKnown x (getSetDecl (Context stdlibOnly)) = true
               /\ getNSSetType stdlibOnly = None)).
Proof.
  apply (no_mapping_means_missing_counterpart stdlibOnly Opaque
           (OptionalTy OTK_Optional (ArrayOf Int)) ObjCMethod ForArgument).
  reflexivity.
Defined.

Lemma complete_registry_never_fails_witness :
  (forall input,
     exists r,
       returns (getBridgedInputType withFoundation ObjCMethod objcMethodArgs
                                    input) [] r)
  /\ (forall result suppressOptional,
        exists r,
          returns (getBridgedResultType withFoundation ObjCMethod
                     objcMethodArgs result suppressOptional) [] r).
Proof.
  apply (complete_registry_never_fails withFoundation ObjCMethod
           objcMethodArgs []).
  reflexivity.
Defined.

(** With the foreign counterparts unavailable the outer tuple is still
    returned: the strings inside the inner tuples are not looked at. *)
Lemma nested_tuples_are_kept_witness :
  returns (getBridgedInputType stdlibOnly ObjCMethod objcMethodArgs
             (TupleTy [unlabeled (TupleTy [unlabeled String; unlabeled Bool]);
                       labeled "names"
                         (TupleTy [unlabeled String; unlabeled String])]))
          []
          (TupleTy [unlabeled (TupleTy [unlabeled String; unlabeled Bool]);
                    labeled "names"
                      (TupleTy [unlabeled String; unlabeled String])]).
Proof.
  apply (nested_tuples_are_kept stdlibOnly ObjCMethod objcMethodArgs).
  - reflexivity.
  - simpl. intros elt [<- | [<- | []]]; eexists; reflexivity.
Defined.

Lemma optional_depth_is_kept_witness :
  optionalDepth (OptionalTy OTK_Optional NSString) = optionalDepth String
  \/ (ForResult = ForResult
      /\ isClangType nsStringPtr = true
      /\ optionalDepth String = 0
      /\ optionalDepth (OptionalTy OTK_Optional NSString) = 1
      /\ exists y, OptionalTy OTK_Optional NSString = OptionalTy OTK_Optional y).
Proof.
  apply (optional_depth_is_kept withFoundation nsStringPtr String ObjCMethod
           ForResult (OptionalTy OTK_Optional NSString)).
  - reflexivity.
  - reflexivity.
Defined.

Lemma nothing_native_is_left_witness :
  isThickFunction (FunctionTy Int String (withSILRepresentation thickInfo Block))
  = false.
Proof.
  destruct (nothing_native_is_left withFoundation Opaque
              (FunctionTy Int String thickInfo) ObjCMethod ForArgument
              (FunctionTy Int String (withSILRepresentation thickInfo Block)))
    as [(Hthick & _) _].
  - reflexivity.
  - simpl. auto.
  - reflexivity.
  - exact Hthick.
Defined.

Lemma tuple_is_bridged_elementwise_witness :
  exists b,
    returns (getBridgedInputType withFoundation ObjCMethod
               (getTupleElementType objcMethodArgs 1) String) [] b
    /\ nth_error [labeled "count" Int; labeled "name" NSString] 1
       = Some (getWithType (labeled "name" String) b).
Proof.
  apply (tuple_is_bridged_elementwise withFoundation ObjCMethod objcMethodArgs
           [labeled "count" Int; labeled "name" String]
           [labeled "count" Int; labeled "name" NSString] [] 1
           (labeled "name" String)).
  - reflexivity.
  - reflexivity.
  - discriminate.
Defined.
